(** * TikTok-Chat-Reader: admission limiter and connection wrapper

    A shallow embedding of [limiter.js] and [connectionWrapper.js] (with the
    listeners the server registers on a wrapper), and the properties of the
    specification checked against it.

    JavaScript numbers are modelled as [Z] (all values here are small exact
    integers), [Map] objects keyed by strings as [gmap string Z], and the
    asynchronous callbacks (promise continuations, timers, event listeners)
    as the events of a step function, one event per callback run: Node runs
    each callback to completion on a single thread. *)

From Stdlib Require Import ZArith Lia.
From stdpp Require Import base strings list gmap.

Local Open Scope Z_scope.

(** ** limiter.js *)

Module Limiter.

(** [socket.handshake]: the peer address and the one header the limiter
    reads. A missing property is [None]. *)
Record Handshake := {
  address : option string;
  x_forwarded_for : option string
}.

Record Socket := { handshake : option Handshake }.

Inductive Warning :=
| WarnNoIp
| WarnMaxConnections (limit : Z) (ip : string)
| WarnMaxRequests (limit : Z) (ip : string).

Definition MAX_IP_CONNECTIONS : Z := 10.
Definition MAX_IP_REQUESTS_PER_MINUTE : Z := 5.

(** JavaScript truthiness of a possibly missing string: [undefined] and the
    empty string are falsy. This is [x || null] for such an [x]. *)
Definition truthy (x : option string) : option string :=
  match x with
  | Some s => if decide (s = EmptyString) then None else Some s
  | None => None
  end.

Definition loopback : list string := ["::1"; "::ffff:127.0.0.1"].

Definition getSocketIp (socket : Socket) : option string :=
  match handshake socket with
  | None => None
  | Some h =>
      match truthy (address h) with
      | None => None
      | Some ip =>
          if bool_decide (ip ∈ loopback)
          then truthy (x_forwarded_for h)
          else Some ip
      end
  end.

(** [(m.get(k) || 0)] *)
Definition get0 (m : gmap string Z) (k : string) : Z := default 0 (m !! k).

(** [io.of('/').sockets.forEach(...)] over the connected sockets, in order. *)
Definition getOverallIpConnectionCounts (io : list Socket) : gmap string Z :=
  foldl (λ ipCounts socket,
           match getSocketIp socket with
           | None => ipCounts
           | Some ip => <[ip := get0 ipCounts ip + 1]> ipCounts
           end) ∅ io.

(** The module-level [ipRequestCounts] is threaded through; the result is
    the returned boolean, the new table and the warnings written. *)
Definition clientBlocked (io : list Socket) (currentSocket : Socket)
    (ipRequestCounts : gmap string Z) : bool * gmap string Z * list Warning :=
  let ipCounts := getOverallIpConnectionCounts io in
  match getSocketIp currentSocket with
  | None => (false, ipRequestCounts, [WarnNoIp])
  | Some currentIp =>
      let currentIpConnections := get0 ipCounts currentIp in
      let currentIpRequests := get0 ipRequestCounts currentIp in
      let ipRequestCounts' := <[currentIp := currentIpRequests + 1]> ipRequestCounts in
      if MAX_IP_CONNECTIONS <? currentIpConnections then
        (true, ipRequestCounts', [WarnMaxConnections MAX_IP_CONNECTIONS currentIp])
      else if MAX_IP_REQUESTS_PER_MINUTE <? currentIpRequests then
        (true, ipRequestCounts', [WarnMaxRequests MAX_IP_REQUESTS_PER_MINUTE currentIp])
      else (false, ipRequestCounts', [])
  end.

(** The [setInterval] callback, every 60 seconds. *)
Definition clearRequestCounts (ipRequestCounts : gmap string Z) : gmap string Z := ∅.

(** [n] admission checks in a row for the same socket, within one window:
    the answers, oldest first, and the table afterwards. *)
Fixpoint requests (n : nat) (io : list Socket) (currentSocket : Socket)
    (ipRequestCounts : gmap string Z) : list bool * gmap string Z :=
  match n with
  | O => ([], ipRequestCounts)
  | S n' =>
      let '(b, t, _) := clientBlocked io currentSocket ipRequestCounts in
      let '(bs, t') := requests n' io currentSocket t in
      (b :: bs, t')
  end.

(** How many of the connected sockets resolve to [ip]. *)
Definition connectionsOf (ip : string) (io : list Socket) : Z :=
  Z.of_nat (length (filter (λ s, getSocketIp s = Some ip) io)).

Definition remote (ip : string) : Socket :=
  {| handshake := Some {| address := Some ip; x_forwarded_for := None |} |}.

End Limiter.

(** ** connectionWrapper.js *)

Module Wrapper.

(** The state the upstream connection reports on a successful connect. *)
Record RoomState := { roomId : string; upgradedToWebsocket : bool }.

(** A thrown [Error]: [err.message], and [err.toString()] as
    [Error.prototype.toString] builds it. *)
Record JsError := { name : string; message : string }.

Definition toString (err : JsError) : string :=
  if decide (name err = EmptyString) then message err
  else if decide (message err = EmptyString) then name err
  else name err +:+ ": " +:+ message err.

(** The events the wrapper emits to its owner. *)
Inductive Emitted :=
| connected (state : RoomState)
| disconnected (reason : string)
| streamEnd.

(** The lines [#log] writes, before formatting. *)
Inductive LogLine :=
| LogStreamEnded
| LogUpstreamDisconnected
| LogError (info exception : string)
| LogConnected (isReconnect : bool) (state : RoomState)
| LogConnectFailed (isReconnect : bool) (msg : string)
| LogGivingUp
| LogReconnecting (waitMs attempt maxAttempts : Z)
| LogClientDisconnected.

(** What a callback does to the outside, in program order. *)
Inductive Effect :=
| Emit (e : Emitted)
| ConsoleLog (uniqueId : string) (line : LogLine)
| ConsoleError (info exception : string)
| SetTimeout (ms : Z)
| UpstreamConnect (isReconnect : bool)
| UpstreamDisconnect.

(** The external [WebcastPushConnection], as far as the wrapper observes
    it: [getState()?.isConnected]. *)
Record Upstream := { isConnected : bool }.

(** The private fields of one [TikTokConnectionWrapper]. *)
Record Fields := {
  connection : Upstream;
  uniqueId : string;
  enableLog : bool;
  clientDisconnected : bool;
  reconnectEnabled : bool;
  reconnectCount : Z;
  reconnectWaitMs : Z
}.

(** [#maxReconnectAttempts] and [#maxReconnectWaitMs] are never assigned
    after their initialisers. *)
Definition maxReconnectAttempts : Z := 5.
Definition maxReconnectWaitMs : Z := 32000.

(** One wrapper together with the module-level [globalConnectionCount]. *)
Record Sys := { this : Fields; globalConnectionCount : Z }.

Definition getGlobalConnectionCount (s : Sys) : Z := globalConnectionCount s.

(** The fields after the constructor ran. *)
Definition new (uniqueId : string) (enableLog : bool) : Fields :=
  {| connection := {| isConnected := false |};
     uniqueId := uniqueId; enableLog := enableLog;
     clientDisconnected := false; reconnectEnabled := true;
     reconnectCount := 0; reconnectWaitMs := 1000 |}.

(** *** Commands: state passing with an output log *)

Definition Cmd : Type := Sys → Sys * list Effect.

Definition skip : Cmd := λ s, (s, []).

Definition andThen (c1 c2 : Cmd) : Cmd := λ s,
  let '(s1, o1) := c1 s in
  let '(s2, o2) := c2 s1 in
  (s2, o1 ++ o2).

Definition tell (e : Effect) : Cmd := λ s, (s, [e]).

Definition update (f : Fields → Fields) : Cmd := λ s,
  ({| this := f (this s); globalConnectionCount := globalConnectionCount s |}, []).

Definition setGlobal (f : Z → Z) : Cmd := λ s,
  ({| this := this s; globalConnectionCount := f (globalConnectionCount s) |}, []).

(** [if (cond) { c; return; } rest] *)
Definition ifReturn (cond : Fields → bool) (c rest : Cmd) : Cmd := λ s,
  if cond (this s) then c s else rest s.

Definition when (cond : Fields → bool) (c : Cmd) : Cmd := ifReturn cond c skip.

Declare Scope cmd_scope.
Delimit Scope cmd_scope with cmd.
Bind Scope cmd_scope with Cmd.
Notation "c1 ;; c2" := (andThen c1 c2) (at level 100, c2 at level 200, right associativity) : cmd_scope.

(** *** Field assignments *)

Definition set_connected (b : bool) (w : Fields) : Fields :=
  {| connection := {| isConnected := b |}; uniqueId := uniqueId w;
     enableLog := enableLog w; clientDisconnected := clientDisconnected w;
     reconnectEnabled := reconnectEnabled w; reconnectCount := reconnectCount w;
     reconnectWaitMs := reconnectWaitMs w |}.

Definition set_clientDisconnected (b : bool) (w : Fields) : Fields :=
  {| connection := connection w; uniqueId := uniqueId w;
     enableLog := enableLog w; clientDisconnected := b;
     reconnectEnabled := reconnectEnabled w; reconnectCount := reconnectCount w;
     reconnectWaitMs := reconnectWaitMs w |}.

Definition set_reconnectEnabled (b : bool) (w : Fields) : Fields :=
  {| connection := connection w; uniqueId := uniqueId w;
     enableLog := enableLog w; clientDisconnected := clientDisconnected w;
     reconnectEnabled := b; reconnectCount := reconnectCount w;
     reconnectWaitMs := reconnectWaitMs w |}.

Definition set_reconnectCount (n : Z) (w : Fields) : Fields :=
  {| connection := connection w; uniqueId := uniqueId w;
     enableLog := enableLog w; clientDisconnected := clientDisconnected w;
     reconnectEnabled := reconnectEnabled w; reconnectCount := n;
     reconnectWaitMs := reconnectWaitMs w |}.

Definition set_reconnectWaitMs (n : Z) (w : Fields) : Fields :=
  {| connection := connection w; uniqueId := uniqueId w;
     enableLog := enableLog w; clientDisconnected := clientDisconnected w;
     reconnectEnabled := reconnectEnabled w; reconnectCount := reconnectCount w;
     reconnectWaitMs := n |}.

(** *** Methods *)

(** [#log(message)] *)
Definition log (line : LogLine) : Cmd := λ s,
  if enableLog (this s) then tell (ConsoleLog (uniqueId (this s)) line) s else skip s.

(** [this.#connection.disconnect()]: the call is recorded and the upstream
    no longer reports itself connected. Whether the upstream then raises
    its own 'disconnected' event is left to the event sequence. *)
Definition upstreamDisconnect : Cmd :=
  (tell UpstreamDisconnect ;; update (set_connected false))%cmd.

(** [disconnect()] *)
Definition disconnect : Cmd :=
  ifReturn clientDisconnected skip
    (log LogClientDisconnected ;;
     update (set_clientDisconnected true) ;;
     update (set_reconnectEnabled false) ;;
     when (λ w, isConnected (connection w)) upstreamDisconnect)%cmd.

(** The reason interpolated into the give-up message: the default
    parameter value when [#scheduleReconnect] is called without argument,
    else the error converted to a string. *)
Definition reasonText (reason : option JsError) : string :=
  match reason with
  | None => "Unknown error"
  | Some err => toString err
  end.

Definition exhausted (w : Fields) : bool :=
  negb (reconnectEnabled w) || (maxReconnectAttempts <=? reconnectCount w).

(** [#scheduleReconnect(reason)], up to arming the timer. *)
Definition scheduleReconnect (reason : option JsError) : Cmd :=
  ifReturn exhausted
    (log LogGivingUp ;;
     tell (Emit (disconnected ("Connection lost. " +:+ reasonText reason))))
    (λ s,
       (log (LogReconnecting (reconnectWaitMs (this s)) (reconnectCount (this s) + 1)
               maxReconnectAttempts) ;;
        tell (SetTimeout (reconnectWaitMs (this s))))%cmd s)%cmd.

(** [connect(isReconnect)], up to the [await]. *)
Definition connect (isReconnect : bool) : Cmd := tell (UpstreamConnect isReconnect).

(** The callback given to [setTimeout]. *)
Definition reconnectTimer : Cmd :=
  ifReturn exhausted skip
    (update (λ w, set_reconnectCount (reconnectCount w + 1) w) ;;
     update (λ w, set_reconnectWaitMs
                    (Z.min (reconnectWaitMs w * 2) maxReconnectWaitMs) w) ;;
     connect true)%cmd.

(** [connect], after the [await] returned [state]. *)
Definition connectResolved (isReconnect : bool) (state : RoomState) : Cmd :=
  (log (LogConnected isReconnect state) ;;
   setGlobal (λ n, n + 1) ;;
   update (set_reconnectCount 0) ;;
   update (set_reconnectWaitMs 1000) ;;
   ifReturn clientDisconnected disconnect
     (when (λ _, negb isReconnect) (tell (Emit (connected state)))))%cmd.

(** [connect], the [catch] block. *)
Definition connectRejected (isReconnect : bool) (err : JsError) : Cmd :=
  (log (LogConnectFailed isReconnect (message err)) ;;
   if isReconnect then scheduleReconnect (Some err)
   else tell (Emit (disconnected (toString err))))%cmd.

(** The listeners of [#setupEventListeners]. *)
Definition onStreamEnd : Cmd :=
  (log LogStreamEnded ;;
   update (set_reconnectEnabled false) ;;
   tell (Emit streamEnd))%cmd.

Definition onDisconnected : Cmd :=
  (setGlobal (λ n, Z.max 0 (n - 1)) ;;
   log LogUpstreamDisconnected ;;
   scheduleReconnect None)%cmd.

Definition onError (info exception : string) : Cmd :=
  (log (LogError info exception) ;;
   tell (ConsoleError info exception))%cmd.

(** *** Callbacks as events *)

Inductive Event :=
| CallConnect
| CallDisconnect
| ConnectResolved (isReconnect : bool) (state : RoomState)
| ConnectRejected (isReconnect : bool) (err : JsError)
| UpstreamStreamEnd
| UpstreamDisconnected
| UpstreamError (info exception : string)
| TimerFired.

(** One callback run. The upstream reports itself connected from the
    moment its [connect()] resolves, and not connected from the moment it
    raises 'disconnected'. *)
Definition handle (ev : Event) : Cmd :=
  match ev with
  | CallConnect => connect false
  | CallDisconnect => disconnect
  | ConnectResolved isReconnect state =>
      (update (set_connected true) ;; connectResolved isReconnect state)%cmd
  | ConnectRejected isReconnect err => connectRejected isReconnect err
  | UpstreamStreamEnd => onStreamEnd
  | UpstreamDisconnected => (update (set_connected false) ;; onDisconnected)%cmd
  | UpstreamError info exception => onError info exception
  | TimerFired => reconnectTimer
  end.

Fixpoint run (evs : list Event) : Cmd :=
  match evs with
  | [] => skip
  | ev :: evs' => (handle ev ;; run evs')%cmd
  end.

Definition start (uniqueId : string) (enableLog : bool) : Sys :=
  {| this := new uniqueId enableLog; globalConnectionCount := 0 |}.

(** *** Readings of an output log *)

Definition isAttempt (e : Effect) : bool :=
  match e with UpstreamConnect true => true | _ => false end.

Definition isConnectCall (e : Effect) : bool :=
  match e with UpstreamConnect _ => true | _ => false end.

Definition isTeardown (e : Effect) : bool :=
  match e with UpstreamDisconnect => true | _ => false end.

Definition attempts (out : list Effect) : nat := length (List.filter isAttempt out).

Definition delays (out : list Effect) : list Z :=
  omap (λ e, match e with SetTimeout ms => Some ms | _ => None end) out.

Definition emitted (out : list Effect) : list Emitted :=
  omap (λ e, match e with Emit x => Some x | _ => None end) out.

Definition isDisconnectedEvent (e : Emitted) : bool :=
  match e with disconnected _ => true | _ => false end.

Definition disconnectedCount (out : list Effect) : nat :=
  length (List.filter isDisconnectedEvent (emitted out)).

Definition connectCalls (out : list Effect) : nat :=
  length (List.filter isConnectCall out).

Definition teardowns (out : list Effect) : nat :=
  length (List.filter isTeardown out).

(** The reconnect attempts a wrapper can still make before it gives up,
    as long as no attempt succeeds. *)
Definition budget (w : Fields) : nat :=
  if exhausted w then 0%nat
  else Z.to_nat (maxReconnectAttempts - reconnectCount w).

Definition isConsoleLog (e : Effect) : bool :=
  match e with ConsoleLog _ _ => true | _ => false end.

Definition isConsoleOutput (e : Effect) : bool :=
  match e with ConsoleLog _ _ | ConsoleError _ _ => true | _ => false end.

(** The output without what goes to the console: events emitted, timers
    armed, calls on the upstream connection. *)
Definition visible (out : list Effect) : list Effect :=
  List.filter (λ e, negb (isConsoleOutput e)) out.

Definition isConnectedEvent (e : Emitted) : bool :=
  match e with connected _ => true | _ => false end.

Definition connectedEvents (out : list Effect) : list Emitted :=
  List.filter isConnectedEvent (emitted out).

(** How the two backoff fields go together: [reconnectWaitMs] is 1000
    doubled once per counted attempt. *)
Definition backoffInv (w : Fields) : Prop :=
  0 ≤ reconnectCount w ≤ maxReconnectAttempts
  ∧ reconnectWaitMs w = 1000 * 2 ^ reconnectCount w.

(** *** Readings of an event sequence *)

Definition noSuccess (ev : Event) : bool :=
  match ev with ConnectResolved _ _ => false | _ => true end.

Definition isCallConnect (ev : Event) : bool :=
  match ev with CallConnect => true | _ => false end.

Definition isUpstreamError (ev : Event) : bool :=
  match ev with UpstreamError _ _ => true | _ => false end.

Definition isInitialSuccess (ev : Event) : bool :=
  match ev with ConnectResolved false _ => true | _ => false end.

Definition isTimerFired (ev : Event) : bool :=
  match ev with TimerFired => true | _ => false end.

Definition isInitialFailure (ev : Event) : bool :=
  match ev with ConnectRejected false _ => true | _ => false end.

(** A 'disconnected' event whose reason is a give-up message. *)
Definition isConnectionLost (e : Emitted) : bool :=
  match e with
  | disconnected reason => String.prefix "Connection lost. " reason
  | _ => true
  end.

(** The two callbacks that call [#scheduleReconnect]. *)
Definition isLoss (ev : Event) : bool :=
  match ev with
  | UpstreamDisconnected | ConnectRejected true _ => true
  | _ => false
  end.

(** One loss of the upstream connection followed by reconnect attempts
    that all fail, with the given errors: each timer fires, then the
    attempt it started is rejected. *)
Definition failingChain (errs : list JsError) : list Event :=
  UpstreamDisconnected :: (errs ≫= λ err, [TimerFired; ConnectRejected true err]).

(** *** Several wrappers sharing the counter *)

(** The process: every wrapper constructed so far, and the one
    [globalConnectionCount] of the module. *)
Record Process := { wrappers : list Fields; counter : Z }.

Inductive ProcessEvent :=
| Construct (uniqueId : string) (enableLog : bool)
| At (i : nat) (ev : Event).

Definition processStep (pe : ProcessEvent) (p : Process) : Process :=
  match pe with
  | Construct uniqueId enableLog =>
      {| wrappers := wrappers p ++ [new uniqueId enableLog]; counter := counter p |}
  | At i ev =>
      match wrappers p !! i with
      | None => p
      | Some w =>
          let s := fst (handle ev {| this := w; globalConnectionCount := counter p |}) in
          {| wrappers := <[i := this s]> (wrappers p);
             counter := globalConnectionCount s |}
      end
  end.

Definition isProcessSuccess (pe : ProcessEvent) : bool :=
  match pe with At _ (ConnectResolved _ _) => true | _ => false end.

Definition isProcessDrop (pe : ProcessEvent) : bool :=
  match pe with At _ UpstreamDisconnected => true | _ => false end.

Definition processRun (pes : list ProcessEvent) (p : Process) : Process :=
  foldl (λ p pe, processStep pe p) p pes.

Definition boot : Process := {| wrappers := []; counter := 0 |}.

End Wrapper.

(** ** The server: the owner's listeners on a wrapper *)

Module Server.
Import Wrapper.

(** What the subscriber's socket is sent on behalf of the wrapper. *)
Inductive SocketMsg :=
| tiktokConnected (state : RoomState)
| tiktokDisconnected (reason : string).

(** The two listeners registered with [once]: [true] while still
    registered. 'streamEnd' is listened for on the upstream connection
    itself, not on the wrapper. *)
Record Listeners := { onceConnected : bool; onceDisconnected : bool }.

Definition registered : Listeners :=
  {| onceConnected := true; onceDisconnected := true |}.

(** [emit]: a [once] listener is removed, then called. *)
Definition dispatch (e : Emitted) (l : Listeners) : Listeners * list SocketMsg :=
  match e with
  | connected state =>
      if onceConnected l
      then ({| onceConnected := false; onceDisconnected := onceDisconnected l |},
            [tiktokConnected state])
      else (l, [])
  | disconnected reason =>
      if onceDisconnected l
      then ({| onceConnected := onceConnected l; onceDisconnected := false |},
            [tiktokDisconnected reason])
      else (l, [])
  | streamEnd => (l, [])
  end.

Fixpoint forward (es : list Emitted) (l : Listeners) : list SocketMsg :=
  match es with
  | [] => []
  | e :: es' => let '(l', out) := dispatch e l in out ++ forward es' l'
  end.

Definition isDisconnectedMsg (m : SocketMsg) : bool :=
  match m with tiktokDisconnected _ => true | _ => false end.

Definition isConnectedMsg (m : SocketMsg) : bool :=
  match m with tiktokConnected _ => true | _ => false end.

(** What an emitted event becomes when its listener is called. *)
Definition relay (e : Emitted) : option SocketMsg :=
  match e with
  | connected state => Some (tiktokConnected state)
  | disconnected reason => Some (tiktokDisconnected reason)
  | streamEnd => None
  end.

(** *** The 'setUniqueId' handler *)

(** The values of an options object; they are passed on unread. *)
Inductive JsValue :=
| JsString (s : string)
| JsBoolean (b : bool)
| JsNumber (n : Z)
| JsObject.

(** The two variables of [process.env] the handler reads. *)
Record Env := { SESSIONID : option string; ENABLE_RATE_LIMIT : option string }.

Definition sensitiveKeys : list string := ["requestOptions"; "websocketOptions"].

(** The options after the [delete]s and the session id of the
    environment. *)
Definition prepareOptions (env : Env) (options : gmap string JsValue)
    : gmap string JsValue :=
  let options := foldl (λ o key, delete key o) options sensitiveKeys in
  match Limiter.truthy (SESSIONID env) with
  | Some sessionId => <["sessionId" := JsString sessionId]> options
  | None => options
  end.

(** [process.env.ENABLE_RATE_LIMIT && clientBlocked(io, socket)]: the
    limiter is only called when the variable is set. *)
Definition rateLimited (env : Env) (io : list Limiter.Socket)
    (socket : Limiter.Socket) (ipRequestCounts : gmap string Z)
    : bool * gmap string Z * list Limiter.Warning :=
  match Limiter.truthy (ENABLE_RATE_LIMIT env) with
  | None => (false, ipRequestCounts, [])
  | Some _ => Limiter.clientBlocked io socket ipRequestCounts
  end.

Definition advisory : string :=
  "Too many connections or requests. Please reduce usage or host your own server instance. Rate limits prevent TikTok from blocking the server IP.".

(** What the handler does, in program order. [Thrown p] is the TypeError
    of reading property [p] of [undefined]. *)
Inductive Did :=
| ConsoleInfo (line : string)
| Warned (w : Limiter.Warning)
| SocketEmit (m : SocketMsg)
| SocketDisconnect (close : bool)
| Constructed (uniqueId : string) (options : gmap string JsValue) (enableLog : bool)
| Called (e : Effect)
| ListenOnce (event : string)
| Thrown (property : string).

(** The limiter's table, the counter of the wrapper module, and the
    [tiktokConnectionWrapper] variable of one subscriber's closure. *)
Record State := {
  ipRequestCounts : gmap string Z;
  connectionCount : Z;
  tiktokConnectionWrapper : option Fields
}.

(** The handler of 'setUniqueId'. [constructorError] is what
    [new TikTokConnectionWrapper] throws, if it throws; [options] is [None]
    when the subscriber sent none. The wrapper class has no public
    [connection] property (the field is the private [#connection]), so the
    handler's first [tiktokConnectionWrapper.connection.once] reads [once]
    of [undefined]. *)
Definition onSetUniqueId (env : Env) (io : list Limiter.Socket)
    (socket : Limiter.Socket) (constructorError : option JsError)
    (uniqueId : string) (options : option (gmap string JsValue))
    (st : State) : State * list Did :=
  let options := prepareOptions env (default ∅ options) in
  let info := match Limiter.truthy (SESSIONID env) with
              | Some _ => [ConsoleInfo "Using SessionId"]
              | None => []
              end in
  let '(blocked, table, warnings) := rateLimited env io socket (ipRequestCounts st) in
  let st' := {| ipRequestCounts := table; connectionCount := connectionCount st;
                tiktokConnectionWrapper := tiktokConnectionWrapper st |} in
  if blocked then
    (st', info ++ map Warned warnings
          ++ [SocketEmit (tiktokDisconnected advisory); SocketDisconnect true])
  else
    match constructorError with
    | Some err =>
        (st', info ++ map Warned warnings
              ++ [SocketEmit (tiktokDisconnected (toString err))])
    | None =>
        let w := new uniqueId true in
        let r := connect false {| this := w; globalConnectionCount := connectionCount st |} in
        ({| ipRequestCounts := table;
            connectionCount := globalConnectionCount r.1;
            tiktokConnectionWrapper := Some (this r.1) |},
         info ++ map Warned warnings
         ++ [Constructed uniqueId options true] ++ map Called r.2
         ++ [ListenOnce "connected"; ListenOnce "disconnected"; Thrown "once"])
    end.

(** The handler of the socket's 'disconnect'. *)
Definition onSocketDisconnect (st : State) : State * list Did :=
  match tiktokConnectionWrapper st with
  | None => (st, [])
  | Some w =>
      let r := disconnect {| this := w; globalConnectionCount := connectionCount st |} in
      ({| ipRequestCounts := ipRequestCounts st;
          connectionCount := globalConnectionCount r.1;
          tiktokConnectionWrapper := Some (this r.1) |},
       map Called r.2)
  end.

Definition isConstructed (d : Did) : bool :=
  match d with Constructed _ _ _ => true | _ => false end.

Definition isListenOnce (d : Did) : bool :=
  match d with ListenOnce _ => true | _ => false end.

Definition isCalled (d : Did) : bool :=
  match d with Called _ => true | _ => false end.

Definition isWarned (d : Did) : bool :=
  match d with Warned _ => true | _ => false end.

(** What the subscriber's socket sees of a handler run. *)
Definition isSocketOutput (d : Did) : bool :=
  match d with SocketEmit _ | SocketDisconnect _ => true | _ => false end.

End Server.

(** * Properties of the limiter *)

Section LimiterFacts.
Import Limiter.

Lemma get0_insert (m : gmap string Z) (k k' : string) (v : Z) :
  get0 (<[k := v]> m) k' = if decide (k = k') then v else get0 m k'.
Proof.
  unfold get0. rewrite lookup_insert. by case_decide.
Qed.

Lemma get0_empty (k : string) : get0 ∅ k = 0.
Proof. unfold get0. by rewrite lookup_empty. Qed.

(** The scan of the connected sockets counts, for every address, the
    sockets that resolve to it. *)
Lemma counts_foldl (io : list Socket) (acc : gmap string Z) (ip : string) :
  get0 (foldl (λ ipCounts socket,
                 match getSocketIp socket with
                 | None => ipCounts
                 | Some ip => <[ip := get0 ipCounts ip + 1]> ipCounts
                 end) acc io) ip
  = get0 acc ip + connectionsOf ip io.
Proof.
  unfold connectionsOf. revert acc.
  induction io as [|socket io IH]; intros acc; simpl.
  - lia.
  - rewrite IH, filter_cons. destruct (getSocketIp socket) as [ip'|] eqn:E.
    + rewrite get0_insert.
      repeat case_decide; simplify_eq; rewrite ?length_cons; lia.
    + case_decide; simplify_eq; lia.
Qed.

Lemma getOverallIpConnectionCounts_spec (io : list Socket) (ip : string) :
  get0 (getOverallIpConnectionCounts io) ip = connectionsOf ip io.
Proof.
  unfold getOverallIpConnectionCounts. rewrite counts_foldl, get0_empty. lia.
Qed.

(** The answer and the new table for a socket whose address resolves. *)
Lemma clientBlocked_resolved io currentSocket t ip :
  getSocketIp currentSocket = Some ip →
  (clientBlocked io currentSocket t).1.1
    = (MAX_IP_CONNECTIONS <? connectionsOf ip io)
      || (MAX_IP_REQUESTS_PER_MINUTE <? get0 t ip)
  ∧ (clientBlocked io currentSocket t).1.2 = <[ip := get0 t ip + 1]> t.
Proof.
  intros Hip. unfold clientBlocked. rewrite Hip.
  rewrite getOverallIpConnectionCounts_spec.
  destruct (MAX_IP_CONNECTIONS <? connectionsOf ip io); [done|].
  destruct (MAX_IP_REQUESTS_PER_MINUTE <? get0 t ip); done.
Qed.

(** Within one window, with the connection ceiling respected, the answers
    depend only on how many checks the address already made. *)
Lemma requests_answers n io currentSocket t ip :
  getSocketIp currentSocket = Some ip →
  connectionsOf ip io ≤ MAX_IP_CONNECTIONS →
  (requests n io currentSocket t).1
    = map (λ i, MAX_IP_REQUESTS_PER_MINUTE <? get0 t ip + Z.of_nat i) (seq 0 n).
Proof.
  intros Hip Hconn. revert t.
  induction n as [|n IH]; intros t; [done|].
  cbn [requests].
  destruct (clientBlocked_resolved io currentSocket t ip Hip) as [Hb Ht].
  destruct (clientBlocked io currentSocket t) as [[b t'] ws]. simpl in Hb, Ht.
  specialize (IH t').
  destruct (requests n io currentSocket t') as [bs t''].
  simpl in IH |- *. f_equal.
  - rewrite Hb. replace (MAX_IP_CONNECTIONS <? connectionsOf ip io) with false
      by (symmetry; apply Z.ltb_ge; lia).
    simpl. f_equal. lia.
  - rewrite IH, Ht, get0_insert, decide_True by done.
    rewrite <- seq_shift, map_map. apply map_ext. intros i. f_equal. lia.
Qed.

Lemma connectionsOf_replicate (ip : string) (n : nat) :
  ip ∉ loopback → ip ≠ EmptyString →
  connectionsOf ip (replicate n (remote ip)) = Z.of_nat n.
Proof.
  intros Hl He. unfold connectionsOf. f_equal.
  induction n as [|n IH]; [done|].
  simpl replicate. rewrite filter_cons.
  assert (getSocketIp (remote ip) = Some ip) as Hr.
  { unfold getSocketIp, remote; simpl.
    rewrite decide_False by done. by rewrite bool_decide_eq_false_2. }
  rewrite decide_True by done. simpl. by rewrite IH.
Qed.

End LimiterFacts.

Section LimiterClaims.
Import Limiter.

(** The connection ceiling: with at most five earlier checks in the
    window, an address is blocked exactly when more than ten connected
    sockets resolve to it (the checking socket is one of them). *)
Lemma connection_ceiling io currentSocket t ip :
  getSocketIp currentSocket = Some ip →
  get0 t ip ≤ MAX_IP_REQUESTS_PER_MINUTE →
  (clientBlocked io currentSocket t).1.1 = (10 <? connectionsOf ip io).
Proof.
  intros Hip Hreq.
  destruct (clientBlocked_resolved io currentSocket t ip Hip) as [-> _].
  replace (MAX_IP_REQUESTS_PER_MINUTE <? get0 t ip) with false
    by (symmetry; apply Z.ltb_ge; lia).
  by rewrite orb_false_r.
Qed.

(** After the table was cleared, an address under the connection ceiling
    is allowed, whatever its count was before. *)
Lemma allowed_after_clear io currentSocket t ip :
  getSocketIp currentSocket = Some ip →
  connectionsOf ip io ≤ MAX_IP_CONNECTIONS →
  (clientBlocked io currentSocket (clearRequestCounts t)).1.1 = false.
Proof.
  intros Hip Hconn.
  destruct (clientBlocked_resolved io currentSocket (clearRequestCounts t) ip Hip)
    as [-> _].
  unfold clearRequestCounts. rewrite get0_empty.
  replace (MAX_IP_CONNECTIONS <? connectionsOf ip io) with false
    by (symmetry; apply Z.ltb_ge; lia).
  done.
Qed.

(** C2: the admission check at its thresholds, for the address
    203.0.113.7. Ten connected sockets are allowed and eleven are blocked;
    in one window the first six checks are all allowed, the sixth
    included, and the seventh is the first one blocked; after the table is
    cleared the address is allowed again. *)
Theorem clientBlocked_thresholds :
  let ip := "203.0.113.7" in
  let me := remote ip in
  (clientBlocked (replicate 10 me) me ∅).1.1 = false
  ∧ (clientBlocked (replicate 11 me) me ∅).1.1 = true
  ∧ (requests 7 [me] me ∅).1 = [false; false; false; false; false; false; true]
  ∧ (clientBlocked [me] me (clearRequestCounts (requests 7 [me] me ∅).2)).1.1 = false.
Proof.
  intros ip me.
  assert (getSocketIp me = Some ip) as Hip by reflexivity.
  assert (ip ∉ loopback) as Hl.
  { unfold loopback, ip. intros H. repeat (apply elem_of_cons in H as [H|H]; [discriminate|]).
    by apply elem_of_nil in H. }
  assert (∀ n, connectionsOf ip (replicate n me) = Z.of_nat n) as Hn.
  { intros n. by apply connectionsOf_replicate. }
  split; [|split; [|split]].
  - rewrite (connection_ceiling _ _ _ ip Hip) by (rewrite get0_empty; done).
    by rewrite Hn.
  - rewrite (connection_ceiling _ _ _ ip Hip) by (rewrite get0_empty; done).
    by rewrite Hn.
  - rewrite (requests_answers 7 [me] me ∅ ip Hip).
    + by rewrite get0_empty.
    + change [me] with (replicate 1 me). by rewrite Hn.
  - apply (allowed_after_clear _ _ _ ip Hip).
    change [me] with (replicate 1 me). by rewrite Hn.
Qed.

(** C7: a socket whose address cannot be resolved (no handshake, no
    address, or a loopback address without a forwarded-for header) is
    never blocked: the answer is [false], one warning is written, and the
    request table is left as it was. *)
Theorem clientBlocked_fail_open io currentSocket t :
  (handshake currentSocket = None
   ∨ ∃ h, handshake currentSocket = Some h
          ∧ (truthy (address h) = None
             ∨ ∃ ip, address h = Some ip ∧ ip ∈ loopback
                     ∧ truthy (x_forwarded_for h) = None)) →
  clientBlocked io currentSocket t = (false, t, [WarnNoIp]).
Proof.
  intros Hun.
  assert (getSocketIp currentSocket = None) as Hip.
  { unfold getSocketIp.
    destruct Hun as [-> | (h & -> & [-> | (ip & Ha & Hl & Hx)])]; [done..|].
    rewrite Ha. simpl. case_decide as He.
    - done.
    - by rewrite bool_decide_eq_true_2. }
  unfold clientBlocked. by rewrite Hip.
Qed.

Lemma clientBlocked_fail_open_witness :
  clientBlocked [remote "198.51.100.4"]
    {| handshake := Some {| address := Some "::1"; x_forwarded_for := None |} |}
    {[ "198.51.100.4" := 9 ]}
  = (false, {[ "198.51.100.4" := 9 ]}, [WarnNoIp]).
Proof.
  apply clientBlocked_fail_open. right. eexists. split; [reflexivity|].
  right. exists "::1". split; [reflexivity|]. split; [|reflexivity].
  unfold loopback. apply list_elem_of_here.
Defined.

End LimiterClaims.

(** ** Further properties of the limiter *)

Section LimiterMore.
Import Limiter.

Lemma connectionsOf_nonneg ip io : 0 ≤ connectionsOf ip io.
Proof. unfold connectionsOf. lia. Qed.

(** Keys are only ever inserted for addresses that resolved, with a
    positive count. *)
Lemma counts_foldl_lookup (io : list Socket) (acc : gmap string Z) (ip : string) :
  (∀ k v, acc !! k = Some v → 0 < v) →
  ∀ v, foldl (λ ipCounts socket,
                match getSocketIp socket with
                | None => ipCounts
                | Some ip => <[ip := get0 ipCounts ip + 1]> ipCounts
                end) acc io !! ip = Some v → 0 < v.
Proof.
  revert acc. induction io as [|socket io IH]; intros acc Hacc v; simpl.
  - apply Hacc.
  - apply IH. intros k w.
    destruct (getSocketIp socket) as [ip'|]; [|apply Hacc].
    rewrite lookup_insert. case_decide as Hk; [|apply Hacc].
    intros [= <-]. unfold get0.
    destruct (acc !! ip') as [u|] eqn:E; simpl; [|lia].
    specialize (Hacc _ _ E). lia.
Qed.

(** The table built by [getOverallIpConnectionCounts] holds, for every
    address, the number of connected sockets that resolve to it, and has no
    entry for an address no socket resolves to. *)
Theorem getOverallIpConnectionCounts_lookup (io : list Socket) (ip : string) :
  getOverallIpConnectionCounts io !! ip
  = if decide (connectionsOf ip io = 0) then None else Some (connectionsOf ip io).
Proof.
  pose proof (getOverallIpConnectionCounts_spec io ip) as Hget.
  unfold get0 in Hget.
  destruct (getOverallIpConnectionCounts io !! ip) as [v|] eqn:E; simpl in Hget.
  - assert (0 < v) as Hpos.
    { unfold getOverallIpConnectionCounts in E.
      eapply (counts_foldl_lookup io ∅ ip); [|exact E].
      intros k w. by rewrite lookup_empty. }
    rewrite decide_False by lia. by rewrite Hget.
  - by rewrite decide_True.
Qed.

(** Sockets whose address does not resolve are invisible to the count:
    dropping them from the scan gives the same table. *)
Theorem unresolved_sockets_not_counted (io : list Socket) :
  getOverallIpConnectionCounts (filter (λ s, getSocketIp s ≠ None) io)
  = getOverallIpConnectionCounts io.
Proof.
  unfold getOverallIpConnectionCounts. generalize (∅ : gmap string Z).
  induction io as [|s io IH]; intros acc; [done|].
  rewrite filter_cons. simpl foldl at 2.
  destruct (getSocketIp s) as [ip|] eqn:E.
  - rewrite decide_True by done. simpl. rewrite E. apply IH.
  - rewrite decide_False by (intros H; by apply H). apply IH.
Qed.

(** What [getSocketIp] returns is never the empty string, and for a peer
    address that is not a loopback marker it is that address, whatever the
    forwarded-for header says. *)
Theorem getSocketIp_resolved (socket : Socket) (ip : string) :
  getSocketIp socket = Some ip →
  ip ≠ EmptyString
  ∧ ∃ h, handshake socket = Some h
         ∧ ((address h = Some ip ∧ ip ∉ loopback)
            ∨ (∃ a, address h = Some a ∧ a ∈ loopback
                    ∧ x_forwarded_for h = Some ip)).
Proof.
  unfold getSocketIp. destruct (handshake socket) as [h|]; [|done].
  destruct (address h) as [a|] eqn:Ea; simpl; [|done].
  case_decide as Hne; [done|].
  destruct (bool_decide (a ∈ loopback)) eqn:Hl.
  - apply bool_decide_eq_true in Hl.
    destruct (x_forwarded_for h) as [x|] eqn:Ex; simpl; [|done].
    case_decide as Hx; [done|]. intros [= <-].
    split; [done|]. exists h. split; [done|]. right. by exists a.
  - apply bool_decide_eq_false in Hl. intros [= <-].
    split; [done|]. exists h. split; [done|]. by left.
Qed.

Lemma getSocketIp_resolved_witness :
  "198.51.100.4" ≠ EmptyString
  ∧ ∃ h, handshake {| handshake := Some {| address := Some "::1";
                        x_forwarded_for := Some "198.51.100.4" |} |} = Some h
         ∧ ((address h = Some "198.51.100.4" ∧ "198.51.100.4" ∉ loopback)
            ∨ (∃ a, address h = Some a ∧ a ∈ loopback
                    ∧ x_forwarded_for h = Some "198.51.100.4")).
Proof.
  apply (getSocketIp_resolved
           {| handshake := Some {| address := Some "::1";
                                    x_forwarded_for := Some "198.51.100.4" |} |}).
  reflexivity.
Defined.

(** A remote peer cannot choose its identity through the header. *)
Theorem getSocketIp_ignores_header_for_remote (a : string) (x : option string) :
  a ≠ EmptyString → a ∉ loopback →
  getSocketIp {| handshake := Some {| address := Some a; x_forwarded_for := x |} |}
  = Some a.
Proof.
  intros Ha Hl. unfold getSocketIp. simpl.
  rewrite decide_False by done. by rewrite bool_decide_eq_false_2.
Qed.

Lemma getSocketIp_ignores_header_for_remote_witness :
  getSocketIp {| handshake := Some {| address := Some "203.0.113.7";
                                       x_forwarded_for := Some "10.0.0.1" |} |}
  = Some "203.0.113.7".
Proof.
  apply getSocketIp_ignores_header_for_remote; [done|].
  unfold loopback. rewrite !elem_of_cons, elem_of_nil. intros [|[|]]; done.
Defined.

(** The [n] answers of one window, for an address that resolves. *)
Lemma requests_answers_general n io currentSocket t ip :
  getSocketIp currentSocket = Some ip →
  (requests n io currentSocket t).1
  = map (λ i, (MAX_IP_CONNECTIONS <? connectionsOf ip io)
              || (MAX_IP_REQUESTS_PER_MINUTE <? get0 t ip + Z.of_nat i)) (seq 0 n)
  ∧ (requests n io currentSocket t).2 !! ip
    = (if n is O then t !! ip else Some (get0 t ip + Z.of_nat n))
  ∧ ∀ ip', ip' ≠ ip → (requests n io currentSocket t).2 !! ip' = t !! ip'.
Proof.
  intros Hip. revert t.
  induction n as [|n IH]; intros t; [done|].
  cbn [requests].
  destruct (clientBlocked_resolved io currentSocket t ip Hip) as [Hb Ht].
  destruct (clientBlocked io currentSocket t) as [[b t'] ws]. simpl in Hb, Ht.
  destruct (IH t') as (IH1 & IH2 & IH3).
  destruct (requests n io currentSocket t') as [bs t'']. simpl in *.
  assert (get0 t' ip = get0 t ip + 1) as Hget
    by (by rewrite Ht, get0_insert, decide_True).
  split; [|split].
  - f_equal.
    + rewrite Hb. do 2 f_equal. lia.
    + rewrite IH1, Hget, <- seq_shift, map_map.
      apply map_ext. intros i. do 2 f_equal. lia.
  - rewrite IH2. destruct n.
    + by rewrite Ht, lookup_insert_eq.
    + rewrite Hget. f_equal. lia.
  - intros ip' Hne. rewrite IH3 by done. rewrite Ht. by rewrite lookup_insert_ne.
Qed.

(** Every check counts as a request, blocked or not: after [n] checks from
    one address its entry has grown by [n], and no other entry changed. *)
Theorem every_check_is_counted n io currentSocket t ip :
  getSocketIp currentSocket = Some ip →
  get0 (requests n io currentSocket t).2 ip = get0 t ip + Z.of_nat n
  ∧ ∀ ip', ip' ≠ ip → (requests n io currentSocket t).2 !! ip' = t !! ip'.
Proof.
  intros Hip.
  destruct (requests_answers_general n io currentSocket t ip Hip) as (_ & H2 & H3).
  split; [|done]. unfold get0 at 1. rewrite H2. destruct n; simpl.
  - unfold get0. lia.
  - done.
Qed.

Lemma every_check_is_counted_witness :
  let me := remote "203.0.113.7" in
  get0 (requests 9 [me] me ∅).2 "203.0.113.7" = get0 ∅ "203.0.113.7" + 9
  ∧ ∀ ip', ip' ≠ "203.0.113.7" → (requests 9 [me] me ∅).2 !! ip' = (∅ : gmap string Z) !! ip'.
Proof.
  intros me. apply (every_check_is_counted 9 [me] me ∅ "203.0.113.7"). reflexivity.
Defined.

(** In a fresh window, an address under the connection ceiling gets
    exactly its first six checks through, however many it makes. *)
Theorem window_allows_six n io currentSocket ip :
  getSocketIp currentSocket = Some ip →
  connectionsOf ip io ≤ MAX_IP_CONNECTIONS →
  (requests n io currentSocket ∅).1
  = replicate (n `min` 6) false ++ replicate (n - 6) true.
Proof.
  intros Hip Hconn.
  rewrite (requests_answers n io currentSocket ∅ ip Hip Hconn), get0_empty.
  unfold MAX_IP_REQUESTS_PER_MINUTE.
  assert (∀ k m, map (λ i, 5 <? 0 + Z.of_nat i) (seq k m)
                 = replicate (m `min` (6 - k)) false ++ replicate (m - (6 - k)) true)
    as Hgen.
  { intros k m. revert k. induction m as [|m IH]; intros k; [done|].
    simpl map. rewrite IH.
    destruct (Z.ltb_spec 5 (0 + Z.of_nat k)).
    - replace (6 - k)%nat with 0%nat by lia.
      replace (6 - S k)%nat with 0%nat by lia. simpl.
      by rewrite !Nat.min_0_r, !Nat.sub_0_r.
    - replace (S m `min` (6 - k))%nat with (S (m `min` (6 - S k))) by lia.
      replace (S m - (6 - k))%nat with (m - (6 - S k))%nat by lia. done. }
  rewrite Hgen. by rewrite Nat.sub_0_r.
Qed.

Lemma window_allows_six_witness :
  let me := remote "203.0.113.7" in
  (requests 8 [me; me] me ∅).1
  = replicate (8 `min` 6) false ++ replicate (8 - 6) true.
Proof.
  intros me. apply (window_allows_six 8 [me; me] me "203.0.113.7").
  - reflexivity.
  - vm_compute. discriminate.
Defined.

(** Once an address is blocked it stays blocked for the rest of the window,
    as long as the connected sockets stay the same. *)
Theorem blocked_stays_blocked n io currentSocket t :
  (clientBlocked io currentSocket t).1.1 = true →
  Forall (λ b, b = true) (requests n io currentSocket (clientBlocked io currentSocket t).1.2).1.
Proof.
  intros Hb.
  destruct (getSocketIp currentSocket) as [ip|] eqn:Hip.
  - destruct (clientBlocked_resolved io currentSocket t ip Hip) as [Hb' Ht].
    rewrite Hb in Hb'. rewrite Ht.
    destruct (requests_answers_general n io currentSocket
                (<[ip := get0 t ip + 1]> t) ip Hip) as (-> & _).
    apply Forall_map, Forall_forall. intros i _. simpl.
    rewrite get0_insert, decide_True by done.
    symmetry in Hb'. apply orb_true_iff in Hb' as [Hc|Hr].
    + by rewrite Hc.
    + apply orb_true_iff. right. apply Z.ltb_lt. apply Z.ltb_lt in Hr. lia.
  - unfold clientBlocked in Hb. by rewrite Hip in Hb.
Qed.

Lemma blocked_stays_blocked_witness :
  let me := remote "203.0.113.7" in
  let t := (requests 6 [me] me ∅).2 in
  Forall (λ b, b = true) (requests 3 [me] me (clientBlocked [me] me t).1.2).1.
Proof.
  intros me t. apply (blocked_stays_blocked 3 [me] me t). reflexivity.
Defined.

(** The checks of one address never change the answer given to another. *)
Theorem identities_are_independent n io io' socket socket' t ip ip' :
  getSocketIp socket = Some ip → getSocketIp socket' = Some ip' → ip ≠ ip' →
  (clientBlocked io' socket' (requests n io socket t).2).1.1
  = (clientBlocked io' socket' t).1.1.
Proof.
  intros Hip Hip' Hne.
  destruct (clientBlocked_resolved io' socket' t ip' Hip') as [-> _].
  destruct (clientBlocked_resolved io' socket' (requests n io socket t).2 ip' Hip')
    as [-> _].
  destruct (requests_answers_general n io socket t ip Hip) as (_ & _ & H3).
  unfold get0. rewrite H3 by done. done.
Qed.

Lemma identities_are_independent_witness :
  let a := remote "203.0.113.7" in
  let b := remote "198.51.100.4" in
  (clientBlocked [a; b] b (requests 20 [a; b] a ∅).2).1.1
  = (clientBlocked [a; b] b ∅).1.1.
Proof.
  intros a b.
  apply (identities_are_independent 20 [a; b] [a; b] a b ∅
           "203.0.113.7" "198.51.100.4"); done.
Defined.

End LimiterMore.

(** * Properties of the connection wrapper *)

Section WrapperFacts.
Import Wrapper.

Ltac unfold_cmds :=
  cbv [handle connect disconnect connectResolved connectRejected onStreamEnd
       onDisconnected onError reconnectTimer scheduleReconnect upstreamDisconnect
       log andThen ifReturn when tell update setGlobal skip exhausted
       set_connected set_clientDisconnected set_reconnectEnabled
       set_reconnectCount set_reconnectWaitMs getGlobalConnectionCount
       this globalConnectionCount connection uniqueId enableLog
       clientDisconnected reconnectEnabled reconnectCount reconnectWaitMs
       isConnected negb orb fst snd].

Ltac split_ifs :=
  repeat match goal with
    | |- context [if ?b then _ else _] => is_var b; destruct b
    | |- context [if ?x <=? ?y then _ else _] => destruct (Z.leb_spec x y)
    | |- context [if ?b then _ else _] => destruct b eqn:?
    end.

Ltac open_sys s :=
  let c := fresh "conn" in let u := fresh "uid" in let l := fresh "logging" in
  let cd := fresh "gone" in let re := fresh "enabled" in
  let n := fresh "count" in let w := fresh "wait" in let g := fresh "global" in
  destruct s as [[[c] u l cd re n w] g]; simpl in *.

Lemma andThen_eq (c1 c2 : Cmd) (s : Sys) :
  andThen c1 c2 s = ((c2 (c1 s).1).1, (c1 s).2 ++ (c2 (c1 s).1).2).
Proof.
  unfold andThen. destruct (c1 s) as [s1 o1]. simpl.
  by destruct (c2 s1) as [s2 o2].
Qed.

Lemma run_cons (ev : Event) (evs : list Event) (s : Sys) :
  run (ev :: evs) s
  = ((run evs (handle ev s).1).1, (handle ev s).2 ++ (run evs (handle ev s).1).2).
Proof. simpl run. apply andThen_eq. Qed.

Lemma run_app (evs1 evs2 : list Event) (s : Sys) :
  run (evs1 ++ evs2) s
  = ((run evs2 (run evs1 s).1).1, (run evs1 s).2 ++ (run evs2 (run evs1 s).1).2).
Proof.
  revert s. induction evs1 as [|ev evs1 IH]; intros s.
  - simpl. by destruct (run evs2 s).
  - rewrite <- app_comm_cons, !run_cons, IH. simpl. by rewrite app_assoc.
Qed.

(** Readings of a concatenated output. *)
Lemma attempts_app o1 o2 : attempts (o1 ++ o2) = (attempts o1 + attempts o2)%nat.
Proof. unfold attempts. by rewrite List.filter_app, length_app. Qed.

Lemma connectCalls_app o1 o2 :
  connectCalls (o1 ++ o2) = (connectCalls o1 + connectCalls o2)%nat.
Proof. unfold connectCalls. by rewrite List.filter_app, length_app. Qed.

Lemma delays_app o1 o2 : delays (o1 ++ o2) = delays o1 ++ delays o2.
Proof. unfold delays. apply omap_app. Qed.

Lemma emitted_app o1 o2 : emitted (o1 ++ o2) = emitted o1 ++ emitted o2.
Proof. unfold emitted. apply omap_app. Qed.

(** Nothing sets [#reconnectEnabled] back to [true], and nothing clears
    [#clientDisconnected]. *)
Lemma handle_keeps_disabled ev s :
  reconnectEnabled (this s) = false →
  reconnectEnabled (this (handle ev s).1) = false.
Proof.
  intros H. open_sys s. subst.
  destruct ev; unfold_cmds; split_ifs; reflexivity.
Qed.

Lemma run_keeps_disabled evs s :
  reconnectEnabled (this s) = false →
  reconnectEnabled (this (run evs s).1) = false.
Proof.
  revert s. induction evs as [|ev evs IH]; intros s H; [done|].
  rewrite run_cons. simpl. by apply IH, handle_keeps_disabled.
Qed.

Lemma handle_keeps_clientDisconnected ev s :
  clientDisconnected (this s) = true →
  clientDisconnected (this (handle ev s).1) = true.
Proof.
  intros H. open_sys s. subst.
  destruct ev; unfold_cmds; split_ifs; reflexivity.
Qed.

Lemma run_keeps_clientDisconnected evs s :
  clientDisconnected (this s) = true →
  clientDisconnected (this (run evs s).1) = true.
Proof.
  revert s. induction evs as [|ev evs IH]; intros s H; [done|].
  rewrite run_cons. simpl. by apply IH, handle_keeps_clientDisconnected.
Qed.

Lemma disconnect_marks s : clientDisconnected (this (disconnect s).1) = true.
Proof. open_sys s. unfold_cmds. split_ifs; simpl in *; congruence. Qed.

Lemma disconnect_noop s :
  clientDisconnected (this s) = true → disconnect s = (s, []).
Proof. intros H. unfold disconnect, ifReturn. by rewrite H. Qed.

(** ** Manual disconnection *)

(** C5: [disconnect()] is idempotent. In every state, a second call right
    after the first changes nothing and has no effect on the outside (no
    second teardown of the upstream session, no log line); the same holds
    for a later call, whatever callbacks ran in between. *)
Theorem disconnect_idempotent (s : Sys) (evs : list Event) :
  disconnect (disconnect s).1 = ((disconnect s).1, [])
  ∧ disconnect (run evs (disconnect s).1).1 = ((run evs (disconnect s).1).1, []).
Proof.
  split.
  - apply disconnect_noop, disconnect_marks.
  - apply disconnect_noop, run_keeps_clientDisconnected, disconnect_marks.
Qed.

(** C10: when a connect attempt succeeds after the client asked to
    disconnect, the success handler still adds one to the global counter
    and still resets [reconnectCount] to 0 and [reconnectWaitMs] to 1000;
    [getGlobalConnectionCount] shows the increment. *)
Theorem success_after_disconnect_counted (s : Sys) (isReconnect : bool)
    (state : RoomState) :
  clientDisconnected (this s) = true →
  let s' := (handle (ConnectResolved isReconnect state) s).1 in
  getGlobalConnectionCount s' = getGlobalConnectionCount s + 1
  ∧ reconnectCount (this s') = 0
  ∧ reconnectWaitMs (this s') = 1000.
Proof.
  intros H. open_sys s. subst.
  unfold_cmds. split_ifs; repeat split.
Qed.

Lemma success_after_disconnect_counted_witness :
  let s := (run [CallConnect; CallDisconnect] (start "streamer" true)).1 in
  let s' := (handle (ConnectResolved false
                       {| roomId := "7301"; upgradedToWebsocket := true |}) s).1 in
  getGlobalConnectionCount s' = 1
  ∧ reconnectCount (this s') = 0
  ∧ reconnectWaitMs (this s') = 1000.
Proof.
  intros s.
  apply (success_after_disconnect_counted s false
           {| roomId := "7301"; upgradedToWebsocket := true |}).
  reflexivity.
Defined.

(** The success handler of a wrapper already marked client-disconnected:
    its [disconnect()] call is a no-op, so the upstream session it has just
    obtained is kept, and nothing is emitted. *)
Lemma connectResolved_keeps_session (s : Sys) (isReconnect : bool)
    (state : RoomState) :
  clientDisconnected (this s) = true →
  let r := handle (ConnectResolved isReconnect state) s in
  isConnected (connection (this r.1)) = true
  ∧ teardowns r.2 = 0%nat
  ∧ emitted r.2 = [].
Proof.
  intros H. open_sys s. subst.
  unfold teardowns, emitted. unfold_cmds. split_ifs; repeat split.
Qed.

(** C1: the owner calls [connect()], then [disconnect()] while the attempt
    is pending, then the attempt succeeds. The success handler emits no
    'connected' event, but it does not tear the upstream session down
    either: its call of [disconnect()] returns at the guard on
    [#clientDisconnected], no [disconnect()] reaches the upstream
    connection, and the session stays connected. *)
Theorem pending_connect_survives_disconnect (uniqueId : string)
    (enableLog : bool) (state : RoomState) :
  let r := run [CallConnect; CallDisconnect; ConnectResolved false state]
             (start uniqueId enableLog) in
  isConnected (connection (this r.1)) = true
  ∧ teardowns r.2 = 0%nat
  ∧ emitted r.2 = []
  ∧ clientDisconnected (this r.1) = true.
Proof.
  destruct enableLog; repeat split.
Qed.

(** ** The global connection counter *)

Lemma handle_counter_nonneg ev s :
  0 ≤ globalConnectionCount s → 0 ≤ globalConnectionCount (handle ev s).1.
Proof.
  intros H. open_sys s.
  destruct ev; unfold_cmds; split_ifs; simpl; lia.
Qed.

Lemma processStep_counter_nonneg pe p :
  0 ≤ counter p → 0 ≤ counter (processStep pe p).
Proof.
  intros H. destruct pe as [u l|i ev]; simpl; [done|].
  destruct (wrappers p !! i) as [w|]; [|done].
  simpl. by apply handle_counter_nonneg.
Qed.

(** C6: the global connection counter is never negative. Whatever
    callbacks run, on whichever wrappers and in whatever order (more
    upstream 'disconnected' events than successful connects included), a
    counter that is not negative stays so. *)
Theorem counter_never_negative (pes : list ProcessEvent) (p : Process) :
  0 ≤ counter p → 0 ≤ counter (processRun pes p).
Proof.
  revert p. induction pes as [|pe pes IH]; intros p H; [done|].
  simpl. by apply IH, processStep_counter_nonneg.
Qed.

Lemma counter_never_negative_witness :
  0 ≤ counter (processRun
                 [Construct "a" false; Construct "b" false;
                  At 0%nat UpstreamDisconnected;
                  At 1%nat (ConnectResolved false
                              {| roomId := "1"; upgradedToWebsocket := false |});
                  At 1%nat UpstreamDisconnected; At 0%nat UpstreamDisconnected;
                  At 1%nat UpstreamDisconnected] boot).
Proof.
  apply counter_never_negative. simpl. lia.
Defined.

(** ** Bounded reconnection *)

(** A callback other than a successful connect uses up one unit of the
    budget for every reconnect attempt it starts. *)
Lemma handle_budget ev s :
  noSuccess ev = true →
  (attempts (handle ev s).2 + budget (this (handle ev s).1) ≤ budget (this s))%nat.
Proof.
  intros H. open_sys s.
  destruct ev; try discriminate H; unfold budget, attempts; unfold_cmds;
    split_ifs; simpl; unfold maxReconnectAttempts in *; lia.
Qed.

Lemma run_budget evs s :
  Forall (λ ev, noSuccess ev = true) evs →
  (attempts (run evs s).2 + budget (this (run evs s).1) ≤ budget (this s))%nat.
Proof.
  intros H. revert s. induction H as [|ev evs Hev _ IH]; intros s.
  - simpl. lia.
  - rewrite run_cons. simpl. rewrite attempts_app.
    specialize (IH (handle ev s).1). pose proof (handle_budget ev s Hev). lia.
Qed.

Lemma budget_le w : 0 ≤ reconnectCount w → (budget w ≤ 5)%nat.
Proof.
  intros H. unfold budget, maxReconnectAttempts. destruct (exhausted w); lia.
Qed.

Lemma budget_exhausted w : exhausted w = true → budget w = 0%nat.
Proof. intros H. unfold budget. by rewrite H. Qed.

(** With successful connects in between, each success hands back at most
    the full budget of five attempts. *)
Lemma handle_budget_any ev s :
  (attempts (handle ev s).2 + budget (this (handle ev s).1)
   ≤ budget (this s) + if noSuccess ev then 0 else 5)%nat.
Proof.
  destruct (noSuccess ev) eqn:E.
  - pose proof (handle_budget ev s E). lia.
  - open_sys s. destruct ev; try discriminate E.
    unfold budget, attempts; unfold_cmds; split_ifs; simpl;
      unfold maxReconnectAttempts in *; lia.
Qed.

Lemma run_budget_any evs s :
  (attempts (run evs s).2 + budget (this (run evs s).1)
   ≤ budget (this s)
     + 5 * length (List.filter (λ ev, negb (noSuccess ev)) evs))%nat.
Proof.
  revert s. induction evs as [|ev evs IH]; intros s.
  - simpl. lia.
  - rewrite run_cons. cbn [fst snd]. rewrite attempts_app.
    specialize (IH (handle ev s).1). pose proof (handle_budget_any ev s).
    simpl List.filter. destruct (noSuccess ev); simpl negb; cbv iota;
      simpl length; lia.
Qed.

(** What the two callbacks that reach [#scheduleReconnect] do once
    reconnection is disabled or exhausted. *)
Lemma handle_loss_exhausted (s : Sys) (err : JsError) :
  exhausted (this s) = true →
  emitted (handle UpstreamDisconnected s).2
    = [disconnected "Connection lost. Unknown error"]
  ∧ emitted (handle (ConnectRejected true err) s).2
    = [disconnected ("Connection lost. " +:+ toString err)]
  ∧ delays (handle UpstreamDisconnected s).2 = []
  ∧ delays (handle (ConnectRejected true err) s).2 = []
  ∧ connectCalls (handle UpstreamDisconnected s).2 = 0%nat
  ∧ connectCalls (handle (ConnectRejected true err) s).2 = 0%nat
  ∧ exhausted (this (handle UpstreamDisconnected s).1) = true
  ∧ exhausted (this (handle (ConnectRejected true err) s).1) = true.
Proof.
  intros H. open_sys s. unfold exhausted, maxReconnectAttempts in H. simpl in H.
  assert (enabled = false ∨ 5 ≤ count) as Hcases.
  { destruct enabled; [right; by apply Z.leb_le|by left]. }
  clear H.
  unfold emitted, delays, connectCalls; unfold_cmds; unfold maxReconnectAttempts.
  destruct logging, enabled; simpl;
    destruct (Z.leb_spec 5 count); simpl; repeat split;
    destruct Hcases; (done || lia).
Qed.

(** C3: reconnection is bounded. From a state with [reconnectCount] at
    least 0, in any run of callbacks without a successful connect in
    between (however many upstream 'disconnected' events, timers and
    failures it holds) the wrapper starts at most 5 reconnect attempts; in
    any run at all, at most 5 more per successful connect. Once
    reconnection is disabled or [reconnectCount] has reached 5, the wrapper
    abandons: an upstream 'disconnected' event, and likewise the failure of
    a reconnect attempt, emits 'disconnected' with the message
    "Connection lost. " followed by the reason ("Unknown error", or the
    error's text), arms no timer, starts no connect and leaves the wrapper
    in that state; no later callback of a run without success starts a
    reconnect attempt. From [reconnectCount] 0 with reconnection enabled,
    one loss followed by five failing attempts makes exactly those five
    attempts, ends with that 'disconnected' event, and whatever follows
    without a success adds no attempt. *)
Theorem reconnect_attempts_bounded (s : Sys) (evs all : list Event)
    (e1 e2 e3 e4 err : JsError) :
  0 ≤ reconnectCount (this s) →
  Forall (λ ev, noSuccess ev = true) evs →
  (attempts (run evs s).2 ≤ 5)%nat
  ∧ (attempts (run all s).2
     ≤ 5 + 5 * length (List.filter (λ ev, negb (noSuccess ev)) all))%nat
  ∧ (exhausted (this s) = true →
     emitted (handle UpstreamDisconnected s).2
       = [disconnected "Connection lost. Unknown error"]
     ∧ emitted (handle (ConnectRejected true err) s).2
       = [disconnected ("Connection lost. " +:+ toString err)]
     ∧ delays (handle UpstreamDisconnected s).2 = []
     ∧ delays (handle (ConnectRejected true err) s).2 = []
     ∧ connectCalls (handle UpstreamDisconnected s).2 = 0%nat
     ∧ connectCalls (handle (ConnectRejected true err) s).2 = 0%nat
     ∧ exhausted (this (handle UpstreamDisconnected s).1) = true
     ∧ exhausted (this (handle (ConnectRejected true err) s).1) = true
     ∧ attempts (run evs s).2 = 0%nat)
  ∧ (reconnectEnabled (this s) = true → reconnectCount (this s) = 0 →
     let chain := failingChain [e1; e2; e3; e4; err] in
     attempts (run chain s).2 = 5%nat
     ∧ emitted (run chain s).2
       = [disconnected ("Connection lost. " +:+ toString err)]
     ∧ attempts (run (chain ++ evs) s).2 = 5%nat).
Proof.
  intros Hcount Hevs. pose proof (run_budget evs s Hevs) as Hrun.
  pose proof (budget_le (this s) Hcount) as Hle.
  split; [lia|]. split; [pose proof (run_budget_any all s); lia|]. split.
  - intros Hex. rewrite (budget_exhausted _ Hex) in Hrun.
    destruct (handle_loss_exhausted s err Hex)
      as (H1 & H2 & H3 & H4 & H5 & H6 & H7 & H8).
    repeat split; try done. lia.
  - intros Hon Hzero chain.
    assert (attempts (run chain s).2 = 5%nat
            ∧ emitted (run chain s).2
              = [disconnected ("Connection lost. " +:+ toString err)]
            ∧ exhausted (this (run chain s).1) = true) as (Ha & He & Hx).
    { subst chain. clear Hrun Hle Hevs Hcount. open_sys s. subst.
      destruct logging; repeat split. }
    split; [done|]. split; [done|].
    rewrite run_app. cbn [snd]. rewrite attempts_app, Ha.
    pose proof (run_budget evs (run chain s).1 Hevs) as Hrest.
    rewrite (budget_exhausted _ Hx) in Hrest. lia.
Qed.

Lemma reconnect_attempts_bounded_witness :
  let err := {| name := "Error"; message := "LIVE has ended" |} in
  let s0 := start "streamer" false in
  let chain := failingChain [err; err; err; err; err] in
  let evs := [UpstreamDisconnected; TimerFired; ConnectRejected true err] in
  let s := (run chain s0).1 in
  (attempts (run chain s0).2 = 5%nat
   ∧ emitted (run chain s0).2 = [disconnected "Connection lost. Error: LIVE has ended"]
   ∧ attempts (run (chain ++ evs) s0).2 = 5%nat)
  ∧ emitted (handle UpstreamDisconnected s).2
    = [disconnected "Connection lost. Unknown error"]
  ∧ emitted (handle (ConnectRejected true err) s).2
    = [disconnected "Connection lost. Error: LIVE has ended"]
  ∧ attempts (run evs s).2 = 0%nat.
Proof.
  intros err s0 chain evs s.
  assert (Forall (λ ev, noSuccess ev = true) evs) as Hevs by (repeat constructor).
  split.
  - apply (reconnect_attempts_bounded s0 evs [] err err err err err);
      [simpl; lia|exact Hevs|reflexivity|reflexivity].
  - destruct (reconnect_attempts_bounded s evs [] err err err err err)
      as (_ & _ & Hgive & _); [simpl; lia|exact Hevs|].
    destruct Hgive as (H1 & H2 & _ & _ & _ & _ & _ & _ & H9); [reflexivity|].
    split; [exact H1|]. split; [exact H2|exact H9].
Defined.

(** ** End of stream *)

Lemma handle_disabled_connectCalls ev s :
  reconnectEnabled (this s) = false →
  connectCalls (handle ev s).2 = (if isCallConnect ev then 1 else 0)%nat
  ∧ attempts (handle ev s).2 = 0%nat.
Proof.
  intros H. open_sys s. subst.
  destruct ev; unfold connectCalls, attempts; unfold_cmds; split_ifs; done.
Qed.

Lemma run_disabled_connectCalls evs s :
  reconnectEnabled (this s) = false →
  connectCalls (run evs s).2 = length (List.filter isCallConnect evs)
  ∧ attempts (run evs s).2 = 0%nat.
Proof.
  revert s. induction evs as [|ev evs IH]; intros s H; [done|].
  rewrite run_cons. simpl snd. rewrite connectCalls_app, attempts_app.
  destruct (handle_disabled_connectCalls ev s H) as [-> ->].
  destruct (IH (handle ev s).1 (handle_keeps_disabled ev s H)) as [-> ->].
  split; [|done]. simpl. by destruct (isCallConnect ev).
Qed.

(** C8: after the upstream raised 'streamEnd', the wrapper never starts a
    reconnect attempt again, whatever callbacks follow (further upstream
    'disconnected' events, timers armed earlier, failures of attempts
    still pending): the only calls of the upstream [connect()] are those
    the owner makes itself through [connect()]. *)
Theorem no_reconnect_after_streamEnd (s : Sys) (evs : list Event) :
  let s1 := (handle UpstreamStreamEnd s).1 in
  attempts (run evs s1).2 = 0%nat
  ∧ connectCalls (run evs s1).2 = length (List.filter isCallConnect evs)
  ∧ reconnectEnabled (this (run evs s1).1) = false.
Proof.
  intros s1.
  assert (reconnectEnabled (this s1) = false) as H.
  { subst s1. open_sys s. unfold_cmds. by split_ifs. }
  destruct (run_disabled_connectCalls evs s1 H) as [Hc Ha].
  split; [done|]. split; [done|]. by apply run_keeps_disabled.
Qed.

(** ** Backoff *)

Lemma handle_backoff ev s :
  backoffInv (this s) →
  backoffInv (this (handle ev s).1)
  ∧ Forall (λ ms, ms = reconnectWaitMs (this s) ∧ reconnectCount (this s) < 5)
      (delays (handle ev s).2).
Proof.
  unfold backoffInv, maxReconnectAttempts. intros [Hc Hw]. open_sys s.
  assert (count = 0 ∨ count = 1 ∨ count = 2 ∨ count = 3 ∨ count = 4 ∨ count = 5)
    as Hcases by lia.
  destruct ev; unfold delays; unfold_cmds; unfold maxReconnectAttempts;
    split_ifs; simpl;
    repeat match goal with
      | |- _ ∧ _ => split
      | |- Forall _ [] => constructor
      | |- Forall _ (_ :: _) => constructor
      end; try done; try lia.
  all: destruct Hcases as [->|[->|[->|[->|[->| ->]]]]]; subst; try lia; reflexivity.
Qed.

Lemma run_backoff evs s :
  backoffInv (this s) →
  backoffInv (this (run evs s).1)
  ∧ Forall (λ ms, ms ∈ [1000; 2000; 4000; 8000; 16000]) (delays (run evs s).2).
Proof.
  revert s. induction evs as [|ev evs IH]; intros s H.
  - split; [done|constructor].
  - rewrite run_cons. simpl. rewrite delays_app.
    destruct (handle_backoff ev s H) as [H1 Hd].
    destruct (IH _ H1) as [H2 Hds]. split; [done|].
    apply Forall_app. split; [|done].
    eapply Forall_impl; [exact Hd|]. intros ms [-> Hlt]. simpl.
    destruct H as [Hc ->]. unfold maxReconnectAttempts in Hc.
    assert (reconnectCount (this s) = 0 ∨ reconnectCount (this s) = 1
            ∨ reconnectCount (this s) = 2 ∨ reconnectCount (this s) = 3
            ∨ reconnectCount (this s) = 4) as Hcases by lia.
    rewrite !elem_of_cons.
    destruct Hcases as [->|[->|[->|[->| ->]]]]; simpl; lia.
Qed.

(** C4, as the code has it. Along reconnect attempts that all fail,
    [reconnectWaitMs] takes the values 1000, 2000, 4000, 8000, 16000,
    32000, doubling at each attempt; the timers armed for the five
    attempts wait 1000, 2000, 4000, 8000 and 16000 ms, and after the fifth
    failure the wrapper gives up. In every execution [reconnectWaitMs]
    is 1000 doubled [reconnectCount] times with [reconnectCount] at most 5
    (so at most 32000), and every timer armed waits one of those five
    delays: no attempt waits 32000 ms. *)
Theorem backoff_sequence (uniqueId : string) (enableLog : bool)
    (evs : list Event) (e1 e2 e3 e4 e5 : JsError) :
  let s0 := start uniqueId enableLog in
  let errs := [e1; e2; e3; e4; e5] in
  map (λ k, reconnectWaitMs (this (run (failingChain (take k errs)) s0).1))
    [0; 1; 2; 3; 4; 5]%nat
  = [1000; 2000; 4000; 8000; 16000; 32000]
  ∧ delays (run (failingChain errs) s0).2 = [1000; 2000; 4000; 8000; 16000]
  ∧ emitted (run (failingChain errs) s0).2
    = [disconnected ("Connection lost. " +:+ toString e5)]
  ∧ 0 ≤ reconnectCount (this (run evs s0).1) ≤ 5
  ∧ reconnectWaitMs (this (run evs s0).1)
    = 1000 * 2 ^ reconnectCount (this (run evs s0).1)
  ∧ reconnectWaitMs (this (run evs s0).1) ≤ maxReconnectWaitMs
  ∧ Forall (λ ms, ms ∈ [1000; 2000; 4000; 8000; 16000]) (delays (run evs s0).2).
Proof.
  intros s0 errs.
  split; [by destruct enableLog|].
  split; [by destruct enableLog|].
  split; [by destruct enableLog|].
  assert (backoffInv (this s0)) as H0.
  { unfold backoffInv, maxReconnectAttempts. simpl. lia. }
  destruct (run_backoff evs s0 H0) as [[Hc Hw] Hd].
  unfold maxReconnectAttempts in Hc.
  split; [done|]. split; [done|]. split; [|done].
  rewrite Hw. unfold maxReconnectWaitMs.
  assert (2 ^ reconnectCount (this (run evs s0).1) ≤ 2 ^ 5)
    by (apply Z.pow_le_mono_r; lia).
  lia.
Qed.

(** The claimed sequence fails on the full chain of failures: five timers
    are armed, the longest for 16000 ms, and none for 32000 ms. *)
Lemma backoff_no_32000_wait :
  let err := {| name := "Error"; message := "LIVE has ended" |} in
  let out := (run (failingChain [err; err; err; err; err]) (start "streamer" false)).2 in
  ¬ (delays out = [1000; 2000; 4000; 8000; 16000; 32000])
  ∧ (32000 ∉ delays out)
  ∧ emitted out = [disconnected "Connection lost. Error: LIVE has ended"].
Proof.
  intros err out. split; [discriminate|]. split; [|reflexivity].
  change (delays out) with [1000; 2000; 4000; 8000; 16000].
  rewrite !elem_of_cons, elem_of_nil. lia.
Qed.

(** ** The 'disconnected' event *)

(** What one callback can emit: at most one 'disconnected', and then
    neither a timer nor a connect. *)
Lemma handle_disconnected ev s :
  disconnectedCount (handle ev s).2 = 0%nat
  ∨ (disconnectedCount (handle ev s).2 = 1%nat
     ∧ delays (handle ev s).2 = []
     ∧ connectCalls (handle ev s).2 = 0%nat
     ∧ ((∃ err, ev = ConnectRejected false err)
        ∨ (exhausted (this s) = true
           ∧ (ev = UpstreamDisconnected ∨ ∃ err, ev = ConnectRejected true err)))).
Proof.
  open_sys s.
  destruct ev as [| |r st|r err| | |info exc|];
    unfold disconnectedCount, connectCalls, delays, emitted; unfold_cmds;
    unfold maxReconnectAttempts; split_ifs; simpl;
    try (left; reflexivity);
    right; repeat split; eauto;
    right; (split; [|eauto]);
    try reflexivity; apply Z.leb_le; lia.
Qed.

(** A [once] listener fires at most once. *)
Lemma forward_disconnected_once (es : list Emitted) (l : Server.Listeners) :
  (length (List.filter Server.isDisconnectedMsg (Server.forward es l))
   ≤ if Server.onceDisconnected l then 1 else 0)%nat.
Proof.
  revert l. induction es as [|e es IH]; intros l; simpl.
  - destruct (Server.onceDisconnected l); lia.
  - destruct e as [st|reason|]; simpl;
      destruct (Server.onceConnected l) eqn:Ec,
               (Server.onceDisconnected l) eqn:Ed; simpl;
      match goal with
      | |- context [Server.forward es ?l'] =>
          specialize (IH l'); simpl in IH; rewrite ?Ed in IH
      end; lia.
Qed.

(** C9, as the code has it. One callback emits 'disconnected' at most
    once, and only when an initial connect fails or when
    [#scheduleReconnect] finds reconnection disabled or exhausted; that
    callback arms no timer and starts no connect. The wrapper keeps no
    record of having emitted it, so a later callback can emit it again;
    the owner listens with [once], so at most one 'disconnected' of a
    wrapper is passed on to the subscriber, whatever callbacks run. *)
Theorem disconnected_forwarded_once (s : Sys) (ev : Event) (evs : list Event) :
  (disconnectedCount (handle ev s).2 = 0%nat
   ∨ (disconnectedCount (handle ev s).2 = 1%nat
      ∧ delays (handle ev s).2 = []
      ∧ connectCalls (handle ev s).2 = 0%nat
      ∧ ((∃ err, ev = ConnectRejected false err)
         ∨ (exhausted (this s) = true
            ∧ (ev = UpstreamDisconnected ∨ ∃ err, ev = ConnectRejected true err)))))
  ∧ (length (List.filter Server.isDisconnectedMsg
               (Server.forward (emitted (run evs s).2) Server.registered)) ≤ 1)%nat.
Proof.
  split.
  - apply handle_disconnected.
  - apply (forward_disconnected_once _ Server.registered).
Qed.

(** The wrapper itself emits 'disconnected' twice when the upstream raises
    one more 'disconnected' event after the wrapper gave up, or two of
    them after the stream ended. *)
Lemma disconnected_emitted_twice :
  let err := {| name := "Error"; message := "LIVE has ended" |} in
  let s0 := start "streamer" false in
  let lost := (run (failingChain [err; err; err; err; err] ++ [UpstreamDisconnected]) s0).2 in
  let ended := (run [UpstreamStreamEnd; UpstreamDisconnected; UpstreamDisconnected] s0).2 in
  ¬ (disconnectedCount lost ≤ 1)%nat
  ∧ emitted lost = [disconnected "Connection lost. Error: LIVE has ended";
                    disconnected "Connection lost. Unknown error"]
  ∧ ¬ (disconnectedCount ended ≤ 1)%nat
  ∧ emitted ended = [streamEnd; disconnected "Connection lost. Unknown error";
                     disconnected "Connection lost. Unknown error"].
Proof.
  intros err s0 lost ended.
  split; [change (disconnectedCount lost) with 2%nat; lia|].
  split; [reflexivity|].
  split; [change (disconnectedCount ended) with 2%nat; lia|].
  reflexivity.
Qed.

(** ** Further properties of the wrapper *)

Lemma visible_app o1 o2 : visible (o1 ++ o2) = visible o1 ++ visible o2.
Proof. unfold visible. apply List.filter_app. Qed.

Lemma teardowns_app o1 o2 : teardowns (o1 ++ o2) = (teardowns o1 + teardowns o2)%nat.
Proof. unfold teardowns. by rewrite List.filter_app, length_app. Qed.

Lemma connectedEvents_app o1 o2 :
  connectedEvents (o1 ++ o2) = connectedEvents o1 ++ connectedEvents o2.
Proof. unfold connectedEvents. by rewrite emitted_app, List.filter_app. Qed.

Lemma handle_logging_off ev s :
  enableLog (this s) = false →
  List.filter isConsoleLog (handle ev s).2 = []
  ∧ enableLog (this (handle ev s).1) = false
  ∧ uniqueId (this (handle ev s).1) = uniqueId (this s).
Proof.
  intros H. open_sys s. subst.
  destruct ev; unfold_cmds; split_ifs; done.
Qed.

(** A wrapper constructed without logging never writes a log line, whatever
    callbacks run; only the [console.error] of an upstream error still
    reaches the console. Its [uniqueId] never changes. *)
Theorem logging_off_is_silent (s : Sys) (evs : list Event) :
  enableLog (this s) = false →
  List.filter isConsoleLog (run evs s).2 = []
  ∧ uniqueId (this (run evs s).1) = uniqueId (this s).
Proof.
  revert s. induction evs as [|ev evs IH]; intros s H; [done|].
  rewrite run_cons. simpl.
  destruct (handle_logging_off ev s H) as (H1 & H2 & H3).
  destruct (IH _ H2) as [IH1 IH2].
  rewrite List.filter_app, H1, IH1, IH2, H3. done.
Qed.

Lemma logging_off_is_silent_witness :
  let err := {| name := "Error"; message := "LIVE has ended" |} in
  let evs := CallConnect :: ConnectRejected false err
             :: failingChain [err; err; err; err; err] ++ [CallDisconnect] in
  List.filter isConsoleLog (run evs (start "streamer" false)).2 = []
  ∧ uniqueId (this (run evs (start "streamer" false)).1) = "streamer".
Proof.
  intros err evs. apply (logging_off_is_silent (start "streamer" false) evs).
  reflexivity.
Defined.

Lemma handle_upstream_error info exception s :
  (handle (UpstreamError info exception) s).1 = s
  ∧ visible (handle (UpstreamError info exception) s).2 = [].
Proof. open_sys s. unfold visible. unfold_cmds. by split_ifs. Qed.

(** Upstream 'error' events are only written to the console: taking them
    out of any sequence of callbacks changes neither the final state nor
    anything the wrapper emits, arms or calls. *)
Theorem upstream_errors_are_inert (s : Sys) (evs : list Event) :
  let evs' := List.filter (λ ev, negb (isUpstreamError ev)) evs in
  (run evs s).1 = (run evs' s).1
  ∧ visible (run evs s).2 = visible (run evs' s).2.
Proof.
  revert s. induction evs as [|ev evs IH]; intros s; [done|].
  cbv zeta in IH |- *.
  simpl List.filter. destruct (isUpstreamError ev) eqn:E; simpl negb; cbv iota.
  - destruct ev; try discriminate E.
    destruct (handle_upstream_error info exception s) as [Hs Hv].
    rewrite run_cons. cbn [fst snd]. rewrite visible_app, Hv, Hs. apply IH.
  - rewrite !run_cons. cbn [fst snd]. rewrite !visible_app.
    destruct (IH (handle ev s).1) as [H1 H2]. by rewrite H1, H2.
Qed.

Lemma handle_teardowns ev s :
  (teardowns (handle ev s).2 ≤ if clientDisconnected (this s) then 0 else 1)%nat
  ∧ (teardowns (handle ev s).2 = 1%nat →
     clientDisconnected (this (handle ev s).1) = true).
Proof.
  open_sys s.
  destruct ev; unfold teardowns; unfold_cmds; split_ifs; simpl; split; (lia || done).
Qed.

(** The wrapper closes its upstream session at most once in its life, and
    never after it was marked client-disconnected. *)
Theorem teardown_at_most_once (s : Sys) (evs : list Event) :
  (teardowns (run evs s).2 ≤ if clientDisconnected (this s) then 0 else 1)%nat.
Proof.
  revert s. induction evs as [|ev evs IH]; intros s.
  - simpl. destruct (clientDisconnected (this s)); unfold teardowns; simpl; lia.
  - rewrite run_cons. simpl. rewrite teardowns_app.
    destruct (handle_teardowns ev s) as [H1 H2]. specialize (IH (handle ev s).1).
    pose proof (handle_keeps_clientDisconnected ev s) as Hk.
    destruct (clientDisconnected (this s)).
    + rewrite Hk in IH by done. lia.
    + destruct (teardowns (handle ev s).2) as [|[|k]] eqn:Ek.
      * destruct (clientDisconnected (this (handle ev s).1)); lia.
      * rewrite H2 in IH by done. lia.
      * lia.
Qed.

Lemma handle_disabled_quiet ev s :
  reconnectEnabled (this s) = false → delays (handle ev s).2 = [].
Proof.
  intros H. open_sys s. subst.
  destruct ev; unfold delays; unfold_cmds; split_ifs; done.
Qed.

Lemma run_disabled_quiet evs s :
  reconnectEnabled (this s) = false → delays (run evs s).2 = [].
Proof.
  revert s. induction evs as [|ev evs IH]; intros s H; [done|].
  rewrite run_cons. cbn [fst snd].
  by rewrite delays_app, (handle_disabled_quiet ev s H),
    (IH _ (handle_keeps_disabled ev s H)).
Qed.

Lemma handle_gone_no_connected ev s :
  clientDisconnected (this s) = true → connectedEvents (handle ev s).2 = [].
Proof.
  intros H. open_sys s. subst.
  destruct ev; unfold connectedEvents, emitted; unfold_cmds; split_ifs; done.
Qed.

Lemma run_gone_no_connected evs s :
  clientDisconnected (this s) = true → connectedEvents (run evs s).2 = [].
Proof.
  revert s. induction evs as [|ev evs IH]; intros s H; [done|].
  rewrite run_cons. cbn [fst snd].
  by rewrite connectedEvents_app, (handle_gone_no_connected ev s H),
    (IH _ (handle_keeps_clientDisconnected ev s H)).
Qed.

Lemma timers_exhausted_noop n s :
  exhausted (this s) = true → run (replicate n TimerFired) s = (s, []).
Proof.
  intros H. induction n as [|n IH]; [done|].
  simpl replicate. rewrite run_cons.
  assert (handle TimerFired s = (s, [])) as ->.
  { simpl. unfold reconnectTimer, ifReturn. by rewrite H. }
  cbn [fst snd]. by rewrite IH.
Qed.

(** The first [disconnect()] cancels reconnection for good: whatever
    callbacks run afterwards, no timer is armed, no reconnect attempt
    starts and no 'connected' event is emitted; timers armed before it fire
    without any effect. *)
Theorem disconnect_cancels_reconnection (s : Sys) (evs : list Event) (n : nat) :
  clientDisconnected (this s) = false →
  let s1 := (disconnect s).1 in
  delays (run evs s1).2 = []
  ∧ attempts (run evs s1).2 = 0%nat
  ∧ connectedEvents (run evs s1).2 = []
  ∧ run (replicate n TimerFired) s1 = (s1, []).
Proof.
  intros H s1.
  assert (reconnectEnabled (this s1) = false) as Hoff.
  { subst s1. open_sys s. subst. unfold_cmds. by split_ifs. }
  split; [by apply run_disabled_quiet|].
  split; [by apply run_disabled_connectCalls|].
  split; [apply run_gone_no_connected, disconnect_marks|].
  apply timers_exhausted_noop. unfold exhausted. by rewrite Hoff.
Qed.

Lemma disconnect_cancels_reconnection_witness :
  let err := {| name := "Error"; message := "LIVE has ended" |} in
  let st := {| roomId := "7301"; upgradedToWebsocket := true |} in
  let s := (run [CallConnect; ConnectResolved false st; UpstreamDisconnected]
              (start "streamer" true)).1 in
  let evs := [TimerFired; ConnectRejected true err; UpstreamDisconnected;
              ConnectResolved false st] in
  delays (run evs (disconnect s).1).2 = []
  ∧ attempts (run evs (disconnect s).1).2 = 0%nat
  ∧ connectedEvents (run evs (disconnect s).1).2 = []
  ∧ run (replicate 3 TimerFired) (disconnect s).1 = ((disconnect s).1, []).
Proof.
  intros err st s evs. apply (disconnect_cancels_reconnection s evs 3). reflexivity.
Defined.

Lemma handle_gone_disabled ev s :
  (clientDisconnected (this s) = true → reconnectEnabled (this s) = false) →
  clientDisconnected (this (handle ev s).1) = true →
  reconnectEnabled (this (handle ev s).1) = false.
Proof.
  open_sys s. intros H.
  destruct ev; unfold_cmds; split_ifs; simpl; intros; auto; done.
Qed.

(** In every state a wrapper can reach, being marked client-disconnected
    implies that reconnection is disabled. *)
Theorem client_disconnected_implies_disabled (uniqueId : string)
    (enableLog : bool) (evs : list Event) :
  let s := (run evs (start uniqueId enableLog)).1 in
  clientDisconnected (this s) = true → reconnectEnabled (this s) = false.
Proof.
  cbv zeta.
  assert (∀ s0, (clientDisconnected (this s0) = true → reconnectEnabled (this s0) = false) →
                clientDisconnected (this (run evs s0).1) = true →
                reconnectEnabled (this (run evs s0).1) = false) as Hgen.
  { induction evs as [|ev evs IH]; intros s0 H0; [done|].
    rewrite run_cons. cbn [fst]. apply IH. by apply handle_gone_disabled. }
  apply Hgen. simpl. discriminate.
Qed.

Lemma client_disconnected_implies_disabled_witness :
  reconnectEnabled
    (this (run [CallConnect; CallDisconnect;
                ConnectResolved false {| roomId := "7301"; upgradedToWebsocket := true |}]
             (start "streamer" false)).1) = false.
Proof.
  apply (client_disconnected_implies_disabled "streamer" false). reflexivity.
Defined.

Lemma handle_connected_count ev s :
  (length (connectedEvents (handle ev s).2)
   ≤ if isInitialSuccess ev then 1 else 0)%nat.
Proof.
  open_sys s.
  destruct ev as [| |[] st|[] err| | |info exc|];
    unfold connectedEvents, emitted; cbn [isInitialSuccess]; unfold_cmds;
    split_ifs; simpl; lia.
Qed.

(** 'connected' is emitted only by the success of an initial attempt: in
    any run there are at most as many 'connected' events as initial
    connects that succeeded, and successful reconnects emit none. *)
Theorem connected_only_for_initial_success (s : Sys) (evs : list Event) :
  (length (connectedEvents (run evs s).2)
   ≤ length (List.filter isInitialSuccess evs))%nat.
Proof.
  revert s. induction evs as [|ev evs IH]; intros s; [done|].
  rewrite run_cons. cbn [fst snd]. rewrite connectedEvents_app, length_app.
  specialize (IH (handle ev s).1). pose proof (handle_connected_count ev s).
  simpl List.filter. destruct (isInitialSuccess ev); simpl length; lia.
Qed.

Lemma handle_retry_sources ev s :
  (length (delays (handle ev s).2) ≤ if isLoss ev then 1 else 0)%nat
  ∧ (attempts (handle ev s).2 ≤ if isTimerFired ev then 1 else 0)%nat.
Proof.
  open_sys s.
  destruct ev as [| |r st|[] err| | |info exc|];
    unfold delays, attempts; cbn [isLoss isTimerFired]; unfold_cmds;
    split_ifs; simpl; lia.
Qed.

(** Retries have only two sources. A timer is armed only in reaction to an
    upstream 'disconnected' event or to a failed reconnect attempt (a
    failed initial connect is never retried), and at most one per such
    callback; a reconnect attempt is started only by a timer, at most one
    per timer. *)
Theorem retry_sources (s : Sys) (evs : list Event) :
  (length (delays (run evs s).2) ≤ length (List.filter isLoss evs))%nat
  ∧ (attempts (run evs s).2 ≤ length (List.filter isTimerFired evs))%nat.
Proof.
  revert s. induction evs as [|ev evs IH]; intros s; [by split|].
  rewrite run_cons. cbn [fst snd]. rewrite delays_app, length_app, attempts_app.
  destruct (IH (handle ev s).1) as [IH1 IH2].
  destruct (handle_retry_sources ev s) as [H1 H2].
  simpl List.filter. destruct (isLoss ev), (isTimerFired ev); simpl length; lia.
Qed.

(** A successful connect, initial or not, hands the wrapper a full retry
    cycle again, whatever [reconnectCount] and [reconnectWaitMs] were: the
    next loss is followed by up to five attempts, waiting 1000, 2000, 4000,
    8000 and 16000 ms, before the wrapper gives up. *)
Theorem success_restores_retry_cycle (s : Sys) (isReconnect : bool)
    (state : RoomState) (e1 e2 e3 e4 e5 : JsError) :
  reconnectEnabled (this s) = true →
  let s1 := (handle (ConnectResolved isReconnect state) s).1 in
  let r := run (failingChain [e1; e2; e3; e4; e5]) s1 in
  delays r.2 = [1000; 2000; 4000; 8000; 16000]
  ∧ attempts r.2 = 5%nat
  ∧ emitted r.2 = [disconnected ("Connection lost. " +:+ toString e5)].
Proof.
  intros H. open_sys s. subst.
  destruct logging, gone, isReconnect; repeat split.
Qed.

Lemma success_restores_retry_cycle_witness :
  let err := {| name := "Error"; message := "LIVE has ended" |} in
  let st := {| roomId := "7301"; upgradedToWebsocket := true |} in
  let s := (run (CallConnect :: ConnectResolved false st
                 :: failingChain [err; err; err]) (start "streamer" false)).1 in
  let r := run (failingChain [err; err; err; err; err])
             (handle (ConnectResolved true st) s).1 in
  delays r.2 = [1000; 2000; 4000; 8000; 16000]
  ∧ attempts r.2 = 5%nat
  ∧ emitted r.2 = [disconnected ("Connection lost. " +:+ toString err)].
Proof.
  intros err st s.
  apply (success_restores_retry_cycle s true st err err err err err). reflexivity.
Defined.

(** ** Further properties of the counter *)

Lemma handle_counter_step ev s :
  0 ≤ globalConnectionCount s →
  globalConnectionCount s
    + (if noSuccess ev then 0 else 1)
    - (match ev with UpstreamDisconnected => 1 | _ => 0 end)
  ≤ globalConnectionCount (handle ev s).1
  ≤ globalConnectionCount s + (if noSuccess ev then 0 else 1).
Proof.
  intros H. open_sys s.
  destruct ev as [| |r st|[] err| | |info exc|];
    cbn [noSuccess]; unfold_cmds; split_ifs; simpl; lia.
Qed.

Lemma processStep_counter_upper pe p :
  0 ≤ counter p →
  counter (processStep pe p) ≤ counter p + (if isProcessSuccess pe then 1 else 0).
Proof.
  intros H. destruct pe as [u l|i ev]; simpl; [lia|].
  destruct (wrappers p !! i) as [w|]; simpl.
  - pose proof (handle_counter_step ev
                  {| this := w; globalConnectionCount := counter p |} H) as Hs.
    simpl in Hs. destruct ev; simpl in *; lia.
  - destruct ev; lia.
Qed.

(** The shared counter never shows more connections than connects have
    succeeded: across all wrappers and any order of callbacks, it grows by
    at most one per successful connect. *)
Theorem counter_bounded_by_successes (pes : list ProcessEvent) (p : Process) :
  0 ≤ counter p →
  counter (processRun pes p)
  ≤ counter p + Z.of_nat (length (List.filter isProcessSuccess pes)).
Proof.
  revert p. induction pes as [|pe pes IH]; intros p H; [simpl; lia|].
  change (processRun (pe :: pes) p) with (processRun pes (processStep pe p)).
  pose proof (processStep_counter_upper pe p H) as Hstep.
  pose proof (processStep_counter_nonneg pe p H) as Hnn.
  specialize (IH _ Hnn). simpl List.filter.
  destruct (isProcessSuccess pe); simpl length; lia.
Qed.

Lemma counter_bounded_by_successes_witness :
  let st := {| roomId := "1"; upgradedToWebsocket := false |} in
  let pes := [Construct "a" false; Construct "b" false;
              At 0%nat (ConnectResolved false st); At 1%nat UpstreamDisconnected;
              At 1%nat (ConnectResolved false st); At 0%nat UpstreamDisconnected;
              At 0%nat TimerFired; At 0%nat (ConnectResolved true st)] in
  counter (processRun pes boot)
  ≤ counter boot + Z.of_nat (length (List.filter isProcessSuccess pes)).
Proof.
  intros st pes. apply (counter_bounded_by_successes pes boot). simpl. lia.
Defined.

Lemma prefix_empty (x : string) : String.prefix EmptyString x = true.
Proof. by destruct x. Qed.

Lemma handle_reasons ev s :
  isInitialFailure ev = false →
  forallb isConnectionLost (emitted (handle ev s).2) = true.
Proof.
  intros H. open_sys s.
  destruct ev as [| |r st|[] err| | |info exc|]; try discriminate H;
    unfold emitted; unfold_cmds; split_ifs; simpl;
    rewrite ?prefix_empty; reflexivity.
Qed.

(** Apart from the failure of an initial connect, which is reported with
    the error's own text, every 'disconnected' the wrapper emits carries a
    reason that starts with "Connection lost. ". *)
Theorem disconnected_reasons (s : Sys) (evs : list Event) :
  forallb (λ ev, negb (isInitialFailure ev)) evs = true →
  forallb isConnectionLost (emitted (run evs s).2) = true.
Proof.
  revert s. induction evs as [|ev evs IH]; intros s H; [done|].
  simpl in H. apply andb_prop in H as [Hev Hevs].
  rewrite run_cons. cbn [fst snd]. rewrite emitted_app, forallb_app.
  rewrite handle_reasons by (by destruct (isInitialFailure ev)).
  by rewrite IH.
Qed.

Lemma disconnected_reasons_witness :
  let err := {| name := "Error"; message := "LIVE has ended" |} in
  let st := {| roomId := "7301"; upgradedToWebsocket := true |} in
  forallb isConnectionLost
    (emitted (run (CallConnect :: ConnectResolved false st
                   :: failingChain [err; err; err; err; err] ++ [UpstreamStreamEnd; UpstreamDisconnected])
                (start "streamer" true)).2) = true.
Proof.
  intros err st. apply disconnected_reasons. reflexivity.
Defined.

End WrapperFacts.

(** * Properties of the server's handlers *)

Section ServerFacts.
Import Wrapper Server.

(** The options a wrapper is constructed with never carry [requestOptions]
    or [websocketOptions]; [sessionId] is the one of the environment when
    that is set, whatever the subscriber sent, and the subscriber's own
    otherwise; every other option is passed on as sent. *)
Theorem prepareOptions_spec (env : Env) (options : gmap string JsValue) :
  prepareOptions env options !! "requestOptions" = None
  ∧ prepareOptions env options !! "websocketOptions" = None
  ∧ prepareOptions env options !! "sessionId"
    = match Limiter.truthy (SESSIONID env) with
      | Some sessionId => Some (JsString sessionId)
      | None => options !! "sessionId"
      end
  ∧ ∀ key, key ∉ ["requestOptions"; "websocketOptions"; "sessionId"] →
           prepareOptions env options !! key = options !! key.
Proof.
  unfold prepareOptions, sensitiveKeys. simpl foldl.
  destruct (Limiter.truthy (SESSIONID env)) as [sid|].
  - split; [by rewrite lookup_insert_ne, lookup_delete_ne, lookup_delete_eq|].
    split; [by rewrite lookup_insert_ne, lookup_delete_eq|].
    split; [by rewrite lookup_insert_eq|].
    intros key Hkey. rewrite !not_elem_of_cons in Hkey.
    destruct Hkey as (H1 & H2 & H3 & _).
    by rewrite lookup_insert_ne, !lookup_delete_ne.
  - split; [by rewrite lookup_delete_ne, lookup_delete_eq|].
    split; [by rewrite lookup_delete_eq|].
    split; [by rewrite !lookup_delete_ne|].
    intros key Hkey. rewrite !not_elem_of_cons in Hkey.
    destruct Hkey as (H1 & H2 & H3 & _).
    by rewrite !lookup_delete_ne.
Qed.

(** Without [ENABLE_RATE_LIMIT] the limiter is not even asked: a request
    leaves the request table as it was, writes no limiter warning and is
    never answered by closing the socket. *)
Theorem rate_limit_off_never_counts (env : Env) (io : list Limiter.Socket)
    (socket : Limiter.Socket) (constructorError : option JsError)
    (uniqueId : string) (options : option (gmap string JsValue)) (st : State) :
  Limiter.truthy (ENABLE_RATE_LIMIT env) = None →
  let r := onSetUniqueId env io socket constructorError uniqueId options st in
  ipRequestCounts r.1 = ipRequestCounts st
  ∧ List.filter isWarned r.2 = []
  ∧ SocketDisconnect true ∉ r.2.
Proof.
  intros Hoff. unfold onSetUniqueId, rateLimited. rewrite Hoff.
  destruct (Limiter.truthy (SESSIONID env)), constructorError; simpl;
    (split; [done|]); (split; [done|]);
    rewrite ?elem_of_cons, elem_of_nil; intros H; decompose [or] H; done.
Qed.

Lemma rate_limit_off_never_counts_witness :
  let env := {| SESSIONID := None; ENABLE_RATE_LIMIT := None |} in
  let me := Limiter.remote "203.0.113.7" in
  let st := {| ipRequestCounts := {[ "203.0.113.7" := 40 ]}; connectionCount := 0;
               tiktokConnectionWrapper := None |} in
  let r := onSetUniqueId env (replicate 12 me) me None "streamer" None st in
  ipRequestCounts r.1 = ipRequestCounts st
  ∧ List.filter isWarned r.2 = []
  ∧ SocketDisconnect true ∉ r.2.
Proof.
  intros env me st.
  apply (rate_limit_off_never_counts env (replicate 12 me) me None "streamer" None st).
  reflexivity.
Defined.

(** A request the limiter blocks is answered with the advisory message and
    the closing of the socket, and with nothing else: no wrapper is
    constructed, no upstream connect is started, the subscriber's wrapper
    variable keeps its value, and the request has still been counted. *)
Theorem blocked_request_is_rejected (env : Env) (io : list Limiter.Socket)
    (socket : Limiter.Socket) (constructorError : option JsError)
    (uniqueId : string) (options : option (gmap string JsValue)) (st : State) :
  (rateLimited env io socket (ipRequestCounts st)).1.1 = true →
  let r := onSetUniqueId env io socket constructorError uniqueId options st in
  List.filter isSocketOutput r.2
    = [SocketEmit (tiktokDisconnected advisory); SocketDisconnect true]
  ∧ List.filter isConstructed r.2 = []
  ∧ List.filter isCalled r.2 = []
  ∧ tiktokConnectionWrapper r.1 = tiktokConnectionWrapper st
  ∧ connectionCount r.1 = connectionCount st
  ∧ ipRequestCounts r.1 = (Limiter.clientBlocked io socket (ipRequestCounts st)).1.2.
Proof.
  intros Hb. unfold onSetUniqueId.
  assert (rateLimited env io socket (ipRequestCounts st)
          = Limiter.clientBlocked io socket (ipRequestCounts st)) as Hrl.
  { unfold rateLimited in *.
    by destruct (Limiter.truthy (ENABLE_RATE_LIMIT env)). }
  rewrite Hrl in Hb |- *.
  destruct (Limiter.clientBlocked io socket (ipRequestCounts st)) as [[b t] ws].
  simpl in Hb. subst b. cbv zeta iota beta.
  assert (∀ f, (∀ w, f (Warned w) = false) →
               List.filter f (map Warned ws) = []) as Hws.
  { clear Hrl. intros f Hf. induction ws as [|w ws IH]; [done|].
    cbn [map List.filter]. rewrite Hf. exact IH. }
  cbn [fst snd]. rewrite !List.filter_app, !Hws by done.
  destruct (Limiter.truthy (SESSIONID env)); done.
Qed.

Lemma blocked_request_is_rejected_witness :
  let env := {| SESSIONID := None; ENABLE_RATE_LIMIT := Some "1" |} in
  let me := Limiter.remote "203.0.113.7" in
  let st := {| ipRequestCounts := ∅; connectionCount := 3;
               tiktokConnectionWrapper := None |} in
  let r := onSetUniqueId env (replicate 11 me) me None "streamer" None st in
  List.filter isSocketOutput r.2
    = [SocketEmit (tiktokDisconnected advisory); SocketDisconnect true]
  ∧ List.filter isConstructed r.2 = []
  ∧ List.filter isCalled r.2 = []
  ∧ tiktokConnectionWrapper r.1 = tiktokConnectionWrapper st
  ∧ connectionCount r.1 = connectionCount st
  ∧ ipRequestCounts r.1
    = (Limiter.clientBlocked (replicate 11 me) me (ipRequestCounts st)).1.2.
Proof.
  intros env me st.
  apply (blocked_request_is_rejected env (replicate 11 me) me None "streamer" None st).
  reflexivity.
Defined.

(** A request that is let through and whose wrapper can be constructed:
    the wrapper is built with logging on and with the prepared options, its
    [connect()] is started, and the listeners for 'connected' and
    'disconnected' are registered; then the handler fails with a TypeError,
    because the wrapper has no [connection] property to read [once] from.
    No further listener is registered. *)
Theorem accepted_request_stops_at_connection (env : Env)
    (io : list Limiter.Socket) (socket : Limiter.Socket) (uniqueId : string)
    (options : option (gmap string JsValue)) (st : State) :
  (rateLimited env io socket (ipRequestCounts st)).1.1 = false →
  let r := onSetUniqueId env io socket None uniqueId options st in
  last r.2 = Some (Thrown "once")
  ∧ List.filter isListenOnce r.2 = [ListenOnce "connected"; ListenOnce "disconnected"]
  ∧ List.filter isConstructed r.2
    = [Constructed uniqueId (prepareOptions env (default ∅ options)) true]
  ∧ List.filter isCalled r.2 = [Called (UpstreamConnect false)]
  ∧ List.filter isSocketOutput r.2 = []
  ∧ tiktokConnectionWrapper r.1 = Some (new uniqueId true)
  ∧ connectionCount r.1 = connectionCount st.
Proof.
  intros Hb. unfold onSetUniqueId.
  destruct (rateLimited env io socket (ipRequestCounts st)) as [[b t] ws].
  simpl in Hb. subst b. cbv zeta iota beta.
  assert (∀ f, (∀ w, f (Warned w) = false) →
               List.filter f (map Warned ws) = []) as Hws.
  { intros f Hf. induction ws as [|w ws IH]; [done|].
    cbn [map List.filter]. rewrite Hf. exact IH. }
  cbn [fst snd]. rewrite !List.filter_app, !Hws by done.
  split.
  - change [ListenOnce "connected"; ListenOnce "disconnected"; Thrown "once"]
      with ([ListenOnce "connected"; ListenOnce "disconnected"] ++ [Thrown "once"]).
    rewrite !app_assoc. apply last_snoc.
  - destruct (Limiter.truthy (SESSIONID env)); done.
Qed.

Lemma accepted_request_stops_at_connection_witness :
  let env := {| SESSIONID := Some "0f3a"; ENABLE_RATE_LIMIT := Some "1" |} in
  let me := Limiter.remote "203.0.113.7" in
  let st := {| ipRequestCounts := ∅; connectionCount := 3;
               tiktokConnectionWrapper := None |} in
  let options := Some {[ "requestOptions" := JsObject; "sessionId" := JsString "mine" ]} in
  let r := onSetUniqueId env [me] me None "streamer" options st in
  last r.2 = Some (Thrown "once")
  ∧ List.filter isListenOnce r.2 = [ListenOnce "connected"; ListenOnce "disconnected"]
  ∧ List.filter isConstructed r.2
    = [Constructed "streamer" (prepareOptions env (default ∅ options)) true]
  ∧ List.filter isCalled r.2 = [Called (UpstreamConnect false)]
  ∧ List.filter isSocketOutput r.2 = []
  ∧ tiktokConnectionWrapper r.1 = Some (new "streamer" true)
  ∧ connectionCount r.1 = connectionCount st.
Proof.
  intros env me st options.
  apply (accepted_request_stops_at_connection env [me] me "streamer" options st).
  reflexivity.
Defined.

(** A wrapper whose construction throws is reported to the subscriber with
    the error's text, once; the socket stays open and the subscriber's
    wrapper variable keeps its value. *)
Theorem constructor_failure_is_reported (env : Env) (io : list Limiter.Socket)
    (socket : Limiter.Socket) (err : JsError) (uniqueId : string)
    (options : option (gmap string JsValue)) (st : State) :
  (rateLimited env io socket (ipRequestCounts st)).1.1 = false →
  let r := onSetUniqueId env io socket (Some err) uniqueId options st in
  List.filter isSocketOutput r.2 = [SocketEmit (tiktokDisconnected (toString err))]
  ∧ List.filter isConstructed r.2 = []
  ∧ List.filter isCalled r.2 = []
  ∧ List.filter isListenOnce r.2 = []
  ∧ tiktokConnectionWrapper r.1 = tiktokConnectionWrapper st.
Proof.
  intros Hb. unfold onSetUniqueId.
  destruct (rateLimited env io socket (ipRequestCounts st)) as [[b t] ws].
  simpl in Hb. subst b. cbv zeta iota beta.
  assert (∀ f, (∀ w, f (Warned w) = false) →
               List.filter f (map Warned ws) = []) as Hws.
  { intros f Hf. induction ws as [|w ws IH]; [done|].
    cbn [map List.filter]. rewrite Hf. exact IH. }
  cbn [fst snd]. rewrite !List.filter_app, !Hws by done.
  destruct (Limiter.truthy (SESSIONID env)); done.
Qed.

Lemma constructor_failure_is_reported_witness :
  let env := {| SESSIONID := None; ENABLE_RATE_LIMIT := None |} in
  let me := Limiter.remote "203.0.113.7" in
  let err := {| name := "Error"; message := "Missing or invalid value for uniqueId" |} in
  let st := {| ipRequestCounts := ∅; connectionCount := 0;
               tiktokConnectionWrapper := None |} in
  let r := onSetUniqueId env [me] me (Some err) EmptyString None st in
  List.filter isSocketOutput r.2 = [SocketEmit (tiktokDisconnected (toString err))]
  ∧ List.filter isConstructed r.2 = []
  ∧ List.filter isCalled r.2 = []
  ∧ List.filter isListenOnce r.2 = []
  ∧ tiktokConnectionWrapper r.1 = tiktokConnectionWrapper st.
Proof.
  intros env me err st.
  apply (constructor_failure_is_reported env [me] me err EmptyString None st).
  reflexivity.
Defined.

Lemma forward_connected (es : list Emitted) (l : Listeners) :
  List.filter isConnectedMsg (forward es l)
  = if onceConnected l then take 1 (List.filter isConnectedMsg (omap relay es)) else [].
Proof.
  revert l. induction es as [|e es IH]; intros l.
  - simpl. by destruct (onceConnected l).
  - destruct e as [st|reason|]; cbn [forward dispatch omap relay];
      destruct (onceConnected l) eqn:Ec, (onceDisconnected l) eqn:Ed;
      cbn [List.filter app isConnectedMsg take]; rewrite ?IH; cbn [onceConnected];
      rewrite ?Ec; try done.
Qed.

Lemma forward_disconnected (es : list Emitted) (l : Listeners) :
  List.filter isDisconnectedMsg (forward es l)
  = if onceDisconnected l
    then take 1 (List.filter isDisconnectedMsg (omap relay es)) else [].
Proof.
  revert l. induction es as [|e es IH]; intros l.
  - simpl. by destruct (onceDisconnected l).
  - destruct e as [st|reason|]; cbn [forward dispatch omap relay];
      destruct (onceConnected l) eqn:Ec, (onceDisconnected l) eqn:Ed;
      cbn [List.filter app isDisconnectedMsg take]; rewrite ?IH;
      cbn [onceDisconnected]; rewrite ?Ed; try done.
Qed.

(** Of everything a wrapper emits, the subscriber is sent the first
    'connected' and the first 'disconnected', each at most once, and
    nothing else. *)
Theorem forward_first_of_each (es : list Emitted) :
  List.filter isConnectedMsg (forward es registered)
  = take 1 (List.filter isConnectedMsg (omap relay es))
  ∧ List.filter isDisconnectedMsg (forward es registered)
    = take 1 (List.filter isDisconnectedMsg (omap relay es))
  ∧ (length (forward es registered) ≤ 2)%nat.
Proof.
  pose proof (forward_connected es registered) as Hc.
  pose proof (forward_disconnected es registered) as Hd.
  simpl in Hc, Hd. split; [done|]. split; [done|].
  assert (∀ ms, length ms
                = (length (List.filter isConnectedMsg ms)
                   + length (List.filter isDisconnectedMsg ms))%nat) as Hsplit.
  { induction ms as [|[st|r] ms IH]; simpl; lia. }
  rewrite Hsplit, Hc, Hd, !length_take. lia.
Qed.

End ServerFacts.
